(** * OGRE compositor: texture definitions and shadow-node construction

    A shallow embedding of

      - [OgreMain/include/Compositor/OgreTextureDefinition.h]
        (class [TextureDefinitionBase] and its nested [TextureDefinition]),
      - [OgreMain/src/Compositor/OgreCompositorShadowNode.cpp]
        (the constructor of [CompositorShadowNode]),

    together with the properties the compositor's specification states
    about them.

    Conventions.  Machine integers ([uint], [uint16], [uint32], [size_t])
    are [Z] or [N] with the truncation written out where the code truncates.
    [String] is [string].  A C++ exception is the [Throw] case of [Result].
    Calls that leave the core (texture manager, render system, pass
    initialisation) are recorded, in order, in a trace of [Event]s. *)

From Stdlib Require Import ZArith String Ascii List Lia.
From Stdlib Require QArith_base.
From stdpp Require Import base tactics option list gmap strings pretty.

Local Open Scope string_scope.
Local Open Scope list_scope.
Local Open Scope Z_scope.

(** ** Exceptions *)

(** The four error kinds of the core. *)
Inductive Exception :=
| NameConflict
| NamingConventionViolation
| NameNotFound
| BackendAllocationError.

(** The outcome of a call that may throw. *)
Inductive Result (A : Type) :=
| Ok (a : A)
| Throw (e : Exception).
Arguments Ok {A} a.
Arguments Throw {A} e.

Definition isOk {A} (r : Result A) : bool :=
  match r with Ok _ => true | Throw _ => false end.

(** ** Interned names *)

(** Modelled from the spec: [IdString] (OgreIdString.h is not part of the
    sources at hand).  The spec calls it an interned symbol, so two names
    intern to the same [IdString] only when they are the same text. *)
Abbreviation IdString := string (only parsing).

Definition IdString_of_String (name : string) : IdString := name.

(** [typedef uint32 IdType]. *)
Abbreviation IdType := N (only parsing).

(** [PixelFormat] is an enumeration of the rendering backend; only the
    identity of a format matters here, so it is kept as its enum value. *)
Abbreviation PixelFormat := N (only parsing).

(** * TextureDefinitionBase *)

Module TextureDefinitionBase.

(** [enum TextureSource], with the values the compiler assigns. *)
Inductive TextureSource :=
| TEXTURE_INPUT
| TEXTURE_LOCAL
| TEXTURE_GLOBAL
| NUM_TEXTURES_SOURCES.

Definition TextureSource_value (ts : TextureSource) : Z :=
  match ts with
  | TEXTURE_INPUT => 0
  | TEXTURE_LOCAL => 1
  | TEXTURE_GLOBAL => 2
  | NUM_TEXTURES_SOURCES => 3
  end.

Definition TextureSource_of_value (v : Z) : TextureSource :=
  match v with
  | 0 => TEXTURE_INPUT
  | 1 => TEXTURE_LOCAL
  | 2 => TEXTURE_GLOBAL
  | _ => NUM_TEXTURES_SOURCES
  end.

#[global] Instance TextureSource_eq_dec : EqDecision TextureSource.
Proof. solve_decision. Defined.

(** [enum BoolSetting { Undefined = 0, False, True }]. *)
Inductive BoolSetting :=
| Undefined
| False_
| True_.

Definition BoolSetting_value (b : BoolSetting) : Z :=
  match b with
  | Undefined => 0
  | False_ => 1
  | True_ => 2
  end.

(** [class TextureDefinition]: the fields in declaration order.  The two
    size factors are single-precision floats in the code; no operation
    modelled here computes with them and they are kept as rationals. *)
Record TextureDefinition := mkTextureDefinition {
  name : IdString;
  width : Z;
  height : Z;
  widthFactor : QArith_base.Q;
  heightFactor : QArith_base.Q;
  formatList : list PixelFormat;
  fsaa : bool;
  hwGammaWrite : BoolSetting;
  depthBufferId : Z;
  fsaaExplicitResolve : bool
}.

(** The constructor [TextureDefinition( IdString _name )]. *)
Definition TextureDefinition_ctor (_name : IdString) : TextureDefinition :=
  {| name := _name;
     width := 0;
     height := 0;
     widthFactor := QArith_base.Qmake 1 1;
     heightFactor := QArith_base.Qmake 1 1;
     formatList := [];
     fsaa := true;
     hwGammaWrite := Undefined;
     depthBufferId := 1;
     fsaaExplicitResolve := false |}.

(** The data members of [TextureDefinitionBase]. *)
Record t := mk {
  mDefaultLocalTextureSource : TextureSource;
  mLocalTextureDefs : list TextureDefinition;
  mNameToChannelMap : gmap string Z
}.

(** The constructor [TextureDefinitionBase( TextureSource defaultSource )]. *)
Definition ctor (defaultSource : TextureSource) : t :=
  {| mDefaultLocalTextureSource := defaultSource;
     mLocalTextureDefs := [];
     mNameToChannelMap := ∅ |}.

(** Largest index (exclusive) the 32-bit encoding can hold next to the
    two bits of the source tag. *)
Definition maxIndex : Z := 2 ^ 30.

(** Modelled from the spec: [encodeTexSource], declared in the header and
    defined in OgreTextureDefinition.cpp, which is not part of the sources
    at hand.  The source kind goes into the low bits and the index into the
    remaining high bits of a 32-bit integer. *)
Definition encodeTexSource (index : Z) (textureSource : TextureSource) : Z :=
  Z.land (Z.lor (Z.shiftl index 2) (TextureSource_value textureSource))
         (Z.ones 32).

(** Modelled from the spec: [decodeTexSource], the inverse reading of the
    same layout; the two out-parameters are returned as a pair. *)
Definition decodeTexSource (encodedVal : Z) : Z * TextureSource :=
  (Z.shiftr encodedVal 2, TextureSource_of_value (Z.land encodedVal 3)).

(** The reserved prefix of global textures. *)
Definition globalPrefix : string := "global_".

Definition hasGlobalPrefix (name : string) : bool :=
  String.prefix globalPrefix name.

(** The prefix rule: the prefix is present exactly for [TEXTURE_GLOBAL]. *)
Definition violatesGlobalPrefix (name : string) (ts : TextureSource) : bool :=
  if hasGlobalPrefix name
  then negb (bool_decide (ts = TEXTURE_GLOBAL))
  else bool_decide (ts = TEXTURE_GLOBAL).

(** Modelled from the spec: [addTextureSourceName] (defined in
    OgreTextureDefinition.cpp, not part of the sources at hand).  It fails
    with [NameConflict] if the name already exists in the map, with
    [NamingConventionViolation] if the prefix rule is violated, and
    otherwise stores the encoded pair under the interned name and returns
    the interned name.  The registry is passed and returned explicitly. *)
Definition addTextureSourceName (name : string) (index : Z)
    (textureSource : TextureSource) (self : t) : Result (IdString * t) :=
  let hashedName := IdString_of_String name in
  match mNameToChannelMap self !! hashedName with
  | Some _ => Throw NameConflict
  | None =>
      if violatesGlobalPrefix name textureSource
      then Throw NamingConventionViolation
      else
        let value := encodeTexSource index textureSource in
        Ok (hashedName,
            {| mDefaultLocalTextureSource := mDefaultLocalTextureSource self;
               mLocalTextureDefs := mLocalTextureDefs self;
               mNameToChannelMap := <[hashedName := value]> (mNameToChannelMap self) |})
  end.

(** Modelled from the spec: [getTextureSource] (same missing file).  It
    fails with [NameNotFound] for an unknown name and otherwise decodes the
    stored value. *)
Definition getTextureSource (name : IdString) (self : t)
    : Result (Z * TextureSource) :=
  match mNameToChannelMap self !! name with
  | None => Throw NameNotFound
  | Some encodedVal => Ok (decodeTexSource encodedVal)
  end.

(** [setLocalTextureDefinitions] reserves memory in the vector; a list has
    no capacity, so the registry is unchanged. *)
Definition setLocalTextureDefinitions (numTDs : Z) (self : t) : t := self.

(** Modelled from the spec: [addTextureDefinition] (same missing file).
    The name is registered through [addTextureSourceName] under the
    registry's default source and the position the new definition will
    occupy; then a definition with default fields is appended.  The
    returned pointer is modelled by the registry together with the index of
    the new definition. *)
Definition addTextureDefinition (name : string) (self : t) : Result (nat * t) :=
  match addTextureSourceName name (Z.of_nat (length (mLocalTextureDefs self)))
          (mDefaultLocalTextureSource self) self with
  | Throw e => Throw e
  | Ok (hashedName, self') =>
      Ok (length (mLocalTextureDefs self'),
          {| mDefaultLocalTextureSource := mDefaultLocalTextureSource self';
             mLocalTextureDefs :=
               mLocalTextureDefs self' ++ [TextureDefinition_ctor hashedName];
             mNameToChannelMap := mNameToChannelMap self' |})
  end.

(** Modelled from the spec: [getNumInputChannels] (declared in the
    header, defined in the same missing file): the number of bindings
    whose source is [TEXTURE_INPUT], counted over the whole map at each
    call. *)
Definition getNumInputChannels (self : t) : nat :=
  size (filter (fun kv : string * Z =>
                  snd (decodeTexSource (snd kv)) = TEXTURE_INPUT)
               (mNameToChannelMap self)).

(** Every name bound under the registry's default source resolves to the
    position of a stored definition that carries this name. *)
Definition namesResolve (self : t) : Prop :=
  forall (key : IdString) (index : Z),
    getTextureSource key self = Ok (index, mDefaultLocalTextureSource self) ->
    0 <= index
    /\ exists def, mLocalTextureDefs self !! Z.to_nat index = Some def
                   /\ name def = key.

End TextureDefinitionBase.

(** * CompositorShadowNode *)

Module CompositorShadowNode.

Import TextureDefinitionBase.

(** ** The objects handed back by the rendering backend *)

(** [enum TextureType] and [enum TextureUsage] of the texture manager; the
    constructor only ever passes [TEX_TYPE_2D] and [TU_RENDERTARGET]. *)
Inductive TextureType := TEX_TYPE_1D | TEX_TYPE_2D | TEX_TYPE_3D | TEX_TYPE_CUBE_MAP.
Inductive TextureUsage := TU_DEFAULT | TU_RENDERTARGET.

(** [ResourceGroupManager::INTERNAL_RESOURCE_GROUP_NAME]. *)
Definition INTERNAL_RESOURCE_GROUP_NAME : string := "Internal".

(** The arguments of one [TextureManager::createManual] call, as the
    constructor writes them: (name, resourceGroup, type, width, height,
    mipmaps, format, usage, gammaCorrection, fsaa).  The null loader the
    code passes in ninth position carries no information and is left out.
    The last two arguments are the definition's [hwGammaWrite] and [fsaa]
    fields, recorded as the call site names them: the parameter types of
    [createManual] are declared in OgreTextureManager.h, which is not part
    of the sources at hand, so no conversion is applied here. *)
Record ManualTextureArgs := mkManualTextureArgs {
  arg_name : string;
  arg_group : string;
  arg_texType : TextureType;
  arg_width : Z;
  arg_height : Z;
  arg_numMipmaps : Z;
  arg_format : PixelFormat;
  arg_usage : TextureUsage;
  arg_hwGammaCorrection : BoolSetting;
  arg_fsaa : bool
}.

(** A [TexturePtr]: the texture the backend created, identified by the
    serial number of the call that created it and remembering the
    arguments of that call. *)
Record Texture := mkTexture {
  tex_serial : nat;
  tex_args : ManualTextureArgs
}.

(** The [RenderTexture*] of a texture, [tex->getBuffer()->getRenderTarget()]. *)
Record RenderTexture := mkRenderTexture {
  rt_texture : Texture
}.

(** A [MultiRenderTarget*]. *)
Record MultiRenderTarget := mkMultiRenderTarget {
  mrt_serial : nat;
  mrt_name : string
}.

(** A [RenderTarget*]: null, a render texture, or a multi render target. *)
Inductive RenderTarget :=
| NullTarget
| TextureTarget (rt : RenderTexture)
| MRTTarget (mrt : MultiRenderTarget).

(** [struct CompositorChannel]. *)
Record CompositorChannel := mkCompositorChannel {
  target : RenderTarget;
  textures : list Texture
}.

(** A default-constructed channel, [CompositorChannel newChannel;]. *)
Definition CompositorChannel_ctor : CompositorChannel :=
  {| target := NullTarget; textures := [] |}.

(** ** Calls that leave the core *)

(** One call to an external collaborator.  [InitializePasses] carries the
    local-channel collection of the node it is invoked on, as that call
    sees it. *)
Inductive ExternalCall :=
| CreateManual (args : ManualTextureArgs)
| CreateMultiRenderTarget (name : string)
| BindSurface (mrt : MultiRenderTarget) (attachment : nat) (rt : RenderTexture)
| InitializePasses (mLocalTextures : list CompositorChannel).

(** A call together with its outcome: [true] when it returned, [false]
    when it threw. *)
Record Event := mkEvent {
  ev_call : ExternalCall;
  ev_ok : bool
}.

Abbreviation Trace := (list Event) (only parsing).

(** The collaborators the constructor relies on and whose code is outside
    the core.  [accepts h c] tells whether the backend, after the calls
    [h], lets the call [c] return ([true]) or makes it throw ([false]);
    the other fields are the [IdString] operations the constructor uses
    to build a resource name and [StringConverter::toString]. *)
Class Collaborators := {
  IdString_of_id : IdType -> IdString;
  IdString_plus : IdString -> IdString -> IdString;
  getFriendlyText : IdString -> string;
  toString : nat -> string;
  accepts : Trace -> ExternalCall -> bool
}.

(** ** Computations that call out and may throw *)

(** A computation reads the trace of the calls made so far and yields a
    result, or the exception that ended it, with the calls it made. *)
Definition M (A : Type) : Type := Trace -> Result A * Trace.

Definition ret {A} (a : A) : M A := fun _ => (Ok a, []).

Definition bind {A B} (m : M A) (f : A -> M B) : M B :=
  fun h =>
    match m h with
    | (Ok a, t1) => let '(r, t2) := f a (h ++ t1) in (r, t1 ++ t2)
    | (Throw e, t1) => (Throw e, t1)
    end.

Notation "x <- c1 ;; c2" := (bind c1 (fun x => c2))
  (at level 100, c1 at next level, right associativity).

(** One external call: it returns the serial number of the call, or throws
    [BackendAllocationError] when the backend refuses it. *)
Definition call `{Collaborators} (c : ExternalCall) : M nat :=
  fun h =>
    if accepts h c
    then (Ok (length h), [mkEvent c true])
    else (Throw BackendAllocationError, [mkEvent c false]).

Definition createManual `{Collaborators} (args : ManualTextureArgs) : M Texture :=
  serial <- call (CreateManual args) ;;
  ret {| tex_serial := serial; tex_args := args |}.

Definition createMultiRenderTarget `{Collaborators} (name : string)
    : M MultiRenderTarget :=
  serial <- call (CreateMultiRenderTarget name) ;;
  ret {| mrt_serial := serial; mrt_name := name |}.

Definition bindSurface `{Collaborators} (mrt : MultiRenderTarget)
    (attachment : nat) (rt : RenderTexture) : M unit :=
  _ <- call (BindSurface mrt attachment rt) ;;
  ret tt.

Definition initializePasses `{Collaborators}
    (mLocalTextures : list CompositorChannel) : M unit :=
  _ <- call (InitializePasses mLocalTextures) ;;
  ret tt.

(** ** Definitions and node *)

(** Modelled from the spec: [ShadowMapTexDef] (OgreCompositorShadowNodeDef.h
    is not part of the sources at hand): a texture definition plus
    shadow-map metadata, a numeric identifier. *)
Record ShadowMapTexDef := mkShadowMapTexDef {
  texDef :> TextureDefinition;
  shadowMapIdx : N
}.

(** Modelled from the spec: [CompositorShadowNodeDef] (same missing
    header), as far as the constructor reads it. *)
Record CompositorShadowNodeDef := mkCompositorShadowNodeDef {
  getName : IdString;
  mShadowMapTexDefinitions : list ShadowMapTexDef
}.

(** The data members of the node the constructor touches. *)
Record t := mk {
  mId : IdType;
  mName : IdString;
  mDefinition : CompositorShadowNodeDef;
  mLocalTextures : list CompositorChannel
}.

(** Modelled from the spec: the base-class constructor [CompositorNode]
    (OgreCompositorNode.cpp is not part of the sources at hand).  The spec
    numbers the shadow channels from 0, so the local-channel collection is
    empty when the body of the derived constructor starts. *)
Definition CompositorNode_ctor (id : IdType) (name : IdString)
    (definition : CompositorShadowNodeDef) : t :=
  {| mId := id; mName := name; mDefinition := definition; mLocalTextures := [] |}.

(** ** The constructor *)

(** [(itor->name + IdString( id )).getFriendlyText()]. *)
Definition textureName `{Collaborators} (id : IdType) (itorName : IdString)
    : string :=
  getFriendlyText (IdString_plus itorName (IdString_of_id id)).

(** The arguments of the [createManual] call of both branches. *)
Definition manualArgs (name : string) (itor : ShadowMapTexDef)
    (format : PixelFormat) : ManualTextureArgs :=
  {| arg_name := name;
     arg_group := INTERNAL_RESOURCE_GROUP_NAME;
     arg_texType := TEX_TYPE_2D;
     arg_width := width itor;
     arg_height := height itor;
     arg_numMipmaps := 0;
     arg_format := format;
     arg_usage := TU_RENDERTARGET;
     arg_hwGammaCorrection := hwGammaWrite itor;
     arg_fsaa := fsaa itor |}.

(** The inner loop [while( pixIt != pixEn )]: [pixels] is what is left of
    the format list and [rtNum] is [pixIt - itor->formatList.begin()]. *)
Fixpoint mrtLoop `{Collaborators} (textureName : string) (itor : ShadowMapTexDef)
    (mrt : MultiRenderTarget) (rtNum : nat) (pixels : list PixelFormat)
    (newChannel : CompositorChannel) : M CompositorChannel :=
  match pixels with
  | [] => ret newChannel
  | pix :: pixels' =>
      tex <- createManual (manualArgs (textureName +:+ toString rtNum) itor pix) ;;
      let rt := mkRenderTexture tex in
      _ <- bindSurface mrt rtNum rt ;;
      mrtLoop textureName itor mrt (S rtNum) pixels'
        {| target := target newChannel;
           textures := textures newChannel ++ [tex] |}
  end.

(** The body of the outer loop up to, and without, the [push_back]: the
    channel built for one definition. *)
Definition createChannel `{Collaborators} (id : IdType) (itor : ShadowMapTexDef)
    : M CompositorChannel :=
  let newChannel := CompositorChannel_ctor in
  let textureName := textureName id (name itor) in
  match formatList itor with
  | [format0] =>
      (* Normal RT *)
      tex <- createManual (manualArgs textureName itor format0) ;;
      let rt := mkRenderTexture tex in
      ret {| target := TextureTarget rt;
             textures := textures newChannel ++ [tex] |}
  | pixels =>
      (* MRT *)
      mrt <- createMultiRenderTarget textureName ;;
      mrtLoop textureName itor mrt 0 pixels
        {| target := MRTTarget mrt; textures := textures newChannel |}
  end.

(** The outer loop [while( itor != end )] over what is left of the
    definitions, with the node's local-channel collection so far. *)
Fixpoint shadowMapLoop `{Collaborators} (id : IdType)
    (defs : list ShadowMapTexDef) (mLocalTextures : list CompositorChannel)
    : M (list CompositorChannel) :=
  match defs with
  | [] => ret mLocalTextures
  | itor :: defs' =>
      newChannel <- createChannel id itor ;;
      shadowMapLoop id defs' (mLocalTextures ++ [newChannel])
  end.

(** [CompositorShadowNode::CompositorShadowNode].  The workspace pointer is
    only handed to the base class and the render system is the backend the
    external calls go to.  An exception leaves the constructor: there is
    no handler in its body. *)
Definition ctor `{Collaborators} (id : IdType)
    (definition : CompositorShadowNodeDef) : M t :=
  let self := CompositorNode_ctor id (getName definition) definition in
  channels <- shadowMapLoop id (mShadowMapTexDefinitions definition)
                (mLocalTextures self) ;;
  _ <- initializePasses channels ;;
  ret {| mId := mId self; mName := mName self;
         mDefinition := mDefinition self;
         mLocalTextures := channels |}.

(** ** Reading a trace *)

(** The resource name a call asks the backend to create, if it is a
    creation call. *)
Definition requestedName (ev : Event) : option string :=
  match ev_call ev with
  | CreateManual args => Some (arg_name args)
  | CreateMultiRenderTarget name => Some name
  | _ => None
  end.

(** All resource names requested in a trace, in order. *)
Definition requestedNames (tr : Trace) : list string :=
  omap requestedName tr.

(** The [createManual] calls of a trace, in order. *)
Definition requestedTextures (tr : Trace) : list ManualTextureArgs :=
  omap (fun ev => match ev_call ev with
                  | CreateManual args => Some args
                  | _ => None
                  end) tr.

(** The names of the [createMultiRenderTarget] calls of a trace, in order. *)
Definition requestedContainers (tr : Trace) : list string :=
  omap (fun ev => match ev_call ev with
                  | CreateMultiRenderTarget name => Some name
                  | _ => None
                  end) tr.

(** The surfaces bound to [mrt] by the calls of a trace that returned, in
    order. *)
Definition boundSurfaces (mrt : MultiRenderTarget) (tr : Trace)
    : list (nat * RenderTexture) :=
  omap (fun ev => match ev_call ev with
                  | BindSurface m attachment rt =>
                      if bool_decide (mrt_serial m = mrt_serial mrt) && ev_ok ev
                      then Some (attachment, rt) else None
                  | _ => None
                  end) tr.

(** The invocations of the pass-initialisation trigger in a trace, each
    with the local-channel collection it saw. *)
Definition passInitializations (tr : Trace) : list (list CompositorChannel) :=
  omap (fun ev => match ev_call ev with
                  | InitializePasses channels => Some channels
                  | _ => None
                  end) tr.

(** An event other than an invocation of the pass-initialisation trigger. *)
Definition notInitializePasses (ev : Event) : Prop :=
  match ev_call ev with InitializePasses _ => False | _ => True end.

(** A trace in which some call threw. *)
Definition someCallThrew (tr : Trace) : Prop :=
  exists ev, ev ∈ tr /\ ev_ok ev = false.

(** [emits P m]: every event of every run of [m] satisfies [P]. *)
Definition emits {A} (P : Event -> Prop) (m : M A) : Prop :=
  forall h, Forall P (snd (m h)).

(** [faithful m]: a run of [m] throws only [BackendAllocationError], and
    throws exactly when some call of the run threw. *)
Definition faithful {A} (m : M A) : Prop :=
  forall h,
    match m h with
    | (Ok _, tr) => Forall (fun ev => ev_ok ev = true) tr
    | (Throw e, tr) => e = BackendAllocationError /\ someCallThrew tr
    end.

(** [returns m]: every run of [m] returns. *)
Definition returns {A} (m : M A) : Prop :=
  forall h, exists a, fst (m h) = Ok a.

(** [requests names m]: a run of [m] that returns has requested exactly
    the resource names [names], in order, and a run that throws has
    requested the first of them. *)
Definition requests {A} (names : list string) (m : M A) : Prop :=
  forall h,
    requestedNames (snd (m h)) `prefix_of` names
    /\ (isOk (fst (m h)) = true -> requestedNames (snd (m h)) = names).

(** The resource names the loop body is due to request for a definition:
    the base name alone for a single format, else the base name for the
    container and the base name followed by each ordinal. *)
Definition channelNames `{Collaborators} (id : IdType) (itor : ShadowMapTexDef)
    : list string :=
  let base := textureName id (name itor) in
  match formatList itor with
  | [_] => [base]
  | pixels => base :: imap (fun k _ => base +:+ toString k) pixels
  end.

Definition expectedNames `{Collaborators} (id : IdType)
    (defs : list ShadowMapTexDef) : list string :=
  concat (channelNames id <$> defs).

(** The resource name of the render target of a channel. *)
Definition targetName (ch : CompositorChannel) : string :=
  match target ch with
  | NullTarget => ""
  | TextureTarget rt => arg_name (tex_args (rt_texture rt))
  | MRTTarget mrt => mrt_name mrt
  end.

(** ** Further readings of a run *)

(** [stops m]: a run of [m] that throws ends with the call the backend
    refused, every earlier call having returned. *)
Definition stops `{Collaborators} {A} (m : M A) : Prop :=
  forall h,
    match m h with
    | (Ok _, tr) => Forall (fun ev => ev_ok ev = true) tr
    | (Throw e, tr) =>
        e = BackendAllocationError
        /\ exists pre ev,
             tr = pre ++ [ev]
             /\ ev_ok ev = false
             /\ accepts (h ++ pre) (ev_call ev) = false
             /\ Forall (fun ev' => ev_ok ev' = true) pre
    end.


(** ** Sample collaborators *)

(** A sample instance of the collaborators, on which the model is
    evaluated: the identifier is written in decimal after a separator,
    [+] concatenates and the friendly text is the text itself; ordinals
    are written in decimal.  The backend is given by its acceptance
    function.  The [IdString] operations themselves (OgreIdString.h) and
    [StringConverter::toString] are not part of the sources at hand: the
    theorems are proved for every instance, and this one only serves to
    run the model on concrete inputs. *)
Definition textual (accepts : Trace -> ExternalCall -> bool) : Collaborators :=
  {| IdString_of_id := fun id => "#" +:+ pretty id;
     IdString_plus := String.append;
     getFriendlyText := fun s => s;
     toString := fun n => pretty n;
     accepts := accepts |}.

(** A backend that lets every call return. *)
Definition acceptAll : Trace -> ExternalCall -> bool := fun _ _ => true.

(** A backend that lets the first [n] calls return and makes every later
    one throw. *)
Definition acceptFirst (n : nat) : Trace -> ExternalCall -> bool :=
  fun h _ => (length h <? n)%nat.

(** A shadow-map definition with the default fields and the given name
    and format list. *)
Definition shadowDef (name : string) (formats : list PixelFormat)
    : ShadowMapTexDef :=
  {| texDef := mkTextureDefinition name 1024 1024
                 (QArith_base.Qmake 1 1) (QArith_base.Qmake 1 1)
                 formats true Undefined 1 false;
     shadowMapIdx := 0 |}.

(** Three definitions: one format, three formats, one format. *)
Definition sampleDefinition : CompositorShadowNodeDef :=
  {| getName := "shadowNode";
     mShadowMapTexDefinitions :=
       [shadowDef "near" [10%N];
        shadowDef "mid" [10%N; 11%N; 12%N];
        shadowDef "far" [10%N]] |}.

(** A definition without any format between two ordinary ones. *)
Definition emptyFormats : CompositorShadowNodeDef :=
  {| getName := "shadowNode";
     mShadowMapTexDefinitions :=
       [shadowDef "near" [10%N]; shadowDef "none" []; shadowDef "far" [10%N]] |}.

(** Two definitions of the same name "a". *)
Definition sameNameTwice : CompositorShadowNodeDef :=
  {| getName := "shadowNode";
     mShadowMapTexDefinitions :=
       [shadowDef "a" [10%N]; shadowDef "a" [10%N; 11%N]] |}.

(** No definition. *)
Definition noDefinitions : CompositorShadowNodeDef :=
  {| getName := "shadowNode"; mShadowMapTexDefinitions := [] |}.

End CompositorShadowNode.

(** * Properties of the registry *)

Section RegistryProperties.

Import TextureDefinitionBase.

(** The tag of a source kind fits in the two low bits. *)
Lemma TextureSource_value_range (ts : TextureSource) :
  0 <= TextureSource_value ts < 4.
Proof. destruct ts; simpl; lia. Qed.

Lemma TextureSource_of_value_value (ts : TextureSource) :
  TextureSource_of_value (TextureSource_value ts) = ts.
Proof. by destruct ts. Qed.

(** The shifted index and the tag have no bit in common. *)
Lemma shifted_index_tag_disjoint (index : Z) (ts : TextureSource) :
  Z.land (index * 4) (TextureSource_value ts) = 0.
Proof.
  pose proof (TextureSource_value_range ts) as Hts.
  apply Z.bits_inj'. intros n Hn.
  rewrite Z.land_spec, Z.bits_0.
  destruct (Z.lt_ge_cases n 2) as [Hlt | Hge].
  - change 4 with (2 ^ 2). by rewrite Z.mul_pow2_bits_low by lia.
  - replace (Z.testbit (TextureSource_value ts) n) with false;
      [apply andb_false_r |].
    symmetry. destruct (Z.eq_dec (TextureSource_value ts) 0) as [-> | Hnz];
      [apply Z.bits_0 |].
    apply Z.bits_above_log2; [lia |].
    assert (Z.log2 (TextureSource_value ts) < 2); [| lia].
    apply Z.log2_lt_pow2; lia.
Qed.

(** Below [maxIndex] the packed word is [4 * index + tag] and nothing is
    lost to the 32-bit truncation. *)
Lemma encodeTexSource_arith (index : Z) (ts : TextureSource) :
  0 <= index < maxIndex ->
  encodeTexSource index ts = 4 * index + TextureSource_value ts.
Proof.
  intros Hidx. unfold encodeTexSource, maxIndex in *.
  pose proof (TextureSource_value_range ts) as Hts.
  pose proof (shifted_index_tag_disjoint index ts) as Hdisj.
  rewrite Z.shiftl_mul_pow2 by lia. change (2 ^ 2) with 4.
  rewrite <- Z.lxor_lor, <- Z.add_nocarry_lxor by done.
  rewrite Z.land_ones by lia.
  rewrite Z.mod_small; lia.
Qed.

(** Decoding undoes encoding below [maxIndex], whatever the tag. *)
Lemma decodeTexSource_encodeTexSource_below (index : Z) (ts : TextureSource) :
  0 <= index < maxIndex ->
  decodeTexSource (encodeTexSource index ts) = (index, ts).
Proof.
  intros Hidx.
  rewrite encodeTexSource_arith by done.
  pose proof (TextureSource_value_range ts) as Hts.
  unfold decodeTexSource. f_equal.
  - rewrite Z.shiftr_div_pow2 by lia. change (2 ^ 2) with 4.
    rewrite Z.mul_comm, Z.div_add_l by lia.
    rewrite Z.div_small by lia. lia.
  - change 3 with (Z.ones 2). rewrite Z.land_ones by lia.
    change (2 ^ 2) with 4.
    rewrite Z.add_comm, Z.mul_comm, Z.mod_add by lia.
    rewrite Z.mod_small by lia.
    apply TextureSource_of_value_value.
Qed.

(** C6.  Round trip of the encoding: for an index in the supported range
    [0 <= index < 2^30] and one of the three source kinds, decoding the
    encoded word gives back the index and the source kind. *)
Theorem decodeTexSource_encodeTexSource (index : Z) (ts : TextureSource) :
  0 <= index < maxIndex ->
  ts <> NUM_TEXTURES_SOURCES ->
  decodeTexSource (encodeTexSource index ts) = (index, ts).
Proof. intros Hidx _. by apply decodeTexSource_encodeTexSource_below. Qed.

(** The round trip at index 40000 under [TEXTURE_GLOBAL]. *)
Lemma decodeTexSource_encodeTexSource_witness :
  decodeTexSource (encodeTexSource 40000 TEXTURE_GLOBAL) = (40000, TEXTURE_GLOBAL).
Proof.
  apply (decodeTexSource_encodeTexSource 40000 TEXTURE_GLOBAL).
  - unfold maxIndex. lia.
  - discriminate.
Defined.

(** Distinct pairs in the supported range never share an encoded word. *)
Lemma encodeTexSource_inj (i1 i2 : Z) (ts1 ts2 : TextureSource) :
  0 <= i1 < maxIndex -> 0 <= i2 < maxIndex ->
  ts1 <> NUM_TEXTURES_SOURCES -> ts2 <> NUM_TEXTURES_SOURCES ->
  encodeTexSource i1 ts1 = encodeTexSource i2 ts2 ->
  i1 = i2 /\ ts1 = ts2.
Proof.
  intros H1 H2 Hn1 Hn2 Heq.
  assert (Hd : decodeTexSource (encodeTexSource i1 ts1)
               = decodeTexSource (encodeTexSource i2 ts2)) by (by rewrite Heq).
  rewrite !decodeTexSource_encodeTexSource_below in Hd by done.
  by inversion Hd.
Qed.

(** The three outcomes of a registration, by the state of the map and
    the prefix rule. *)
Lemma addTextureSourceName_cases (name : string) (index : Z)
    (ts : TextureSource) (self : t) :
  addTextureSourceName name index ts self =
    match mNameToChannelMap self !! IdString_of_String name with
    | Some _ => Throw NameConflict
    | None =>
        if violatesGlobalPrefix name ts then Throw NamingConventionViolation
        else Ok (IdString_of_String name,
                 {| mDefaultLocalTextureSource := mDefaultLocalTextureSource self;
                    mLocalTextureDefs := mLocalTextureDefs self;
                    mNameToChannelMap :=
                      <[IdString_of_String name := encodeTexSource index ts]>
                        (mNameToChannelMap self) |})
    end.
Proof. reflexivity. Qed.


(** C7.  [addTextureSourceName] throws [NameConflict] when, and only when,
    the name is already a key of the map of the registry it is called on;
    whether it conflicts in one registry says nothing about another one,
    where the same name registers as soon as it is absent there; and a
    successful call returns the interned name and leaves the encoded
    (index, source) pair stored under it, the other bindings and the
    definitions being untouched. *)
Theorem addTextureSourceName_NameConflict (name : string) (index : Z)
    (ts : TextureSource) (self : t) :
  (addTextureSourceName name index ts self = Throw NameConflict <->
   is_Some (mNameToChannelMap self !! IdString_of_String name))
  /\ (forall (other : t) (hashedName : IdString) (self' : t),
        addTextureSourceName name index ts self = Ok (hashedName, self') ->
        mNameToChannelMap other !! IdString_of_String name = None ->
        exists other',
          addTextureSourceName name index ts other = Ok (hashedName, other')
          /\ mNameToChannelMap other' !! hashedName
             = Some (encodeTexSource index ts))
  /\ (forall (hashedName : IdString) (self' : t),
        addTextureSourceName name index ts self = Ok (hashedName, self') ->
        hashedName = IdString_of_String name
        /\ mNameToChannelMap self' !! hashedName
           = Some (encodeTexSource index ts)
        /\ (forall other : IdString, other <> hashedName ->
              mNameToChannelMap self' !! other = mNameToChannelMap self !! other)
        /\ mLocalTextureDefs self' = mLocalTextureDefs self
        /\ mDefaultLocalTextureSource self' = mDefaultLocalTextureSource self).
Proof.
  rewrite addTextureSourceName_cases.
  split; [| split].
  - destruct (mNameToChannelMap self !! IdString_of_String name) as [v |] eqn:Hl.
    + split; eauto.
    + split.
      * destruct (violatesGlobalPrefix name ts); discriminate.
      * intros [v Hv]. discriminate.
  - intros other hashedName self' Hadd Hfresh.
    rewrite addTextureSourceName_cases, Hfresh.
    destruct (mNameToChannelMap self !! IdString_of_String name); [discriminate |].
    destruct (violatesGlobalPrefix name ts); [discriminate |].
    inversion Hadd; subst. eexists. split; [reflexivity |].
    simpl. apply lookup_insert_eq.
  - intros hashedName self' Hadd.
    destruct (mNameToChannelMap self !! IdString_of_String name); [discriminate |].
    destruct (violatesGlobalPrefix name ts); [discriminate |].
    inversion Hadd; subst. simpl.
    split; [done |]. split; [apply lookup_insert_eq |].
    split; [| done].
    intros other Hne. by apply lookup_insert_ne.
Qed.

(** A second registration of "rt0" in the registry that already holds it
    conflicts, while a fresh registry takes the same name. *)
Lemma addTextureSourceName_NameConflict_witness :
  let r0 := ctor TEXTURE_LOCAL in
  let r1 := {| mDefaultLocalTextureSource := TEXTURE_LOCAL;
               mLocalTextureDefs := [];
               mNameToChannelMap := {[ "rt0" := encodeTexSource 0 TEXTURE_LOCAL ]} |} in
  addTextureSourceName "rt0" 0 TEXTURE_LOCAL r0 = Ok ("rt0", r1)
  /\ addTextureSourceName "rt0" 1 TEXTURE_LOCAL r1 = Throw NameConflict
  /\ isOk (addTextureSourceName "rt0" 1 TEXTURE_LOCAL r0) = true.
Proof.
  intros r0 r1. split; [reflexivity |]. split; [| reflexivity].
  apply (proj1 (addTextureSourceName_NameConflict "rt0" 1 TEXTURE_LOCAL r1)).
  exists (encodeTexSource 0 TEXTURE_LOCAL). reflexivity.
Defined.

(** [addTextureDefinition] fails exactly as the registration it makes. *)
Lemma addTextureDefinition_Throw (name : string) (self : t) (e : Exception) :
  addTextureDefinition name self = Throw e <->
  addTextureSourceName name (Z.of_nat (length (mLocalTextureDefs self)))
    (mDefaultLocalTextureSource self) self = Throw e.
Proof.
  unfold addTextureDefinition.
  destruct (addTextureSourceName _ _ _ _) as [[hashedName self'] | e'].
  - split; discriminate.
  - split; intros [= ->]; reflexivity.
Qed.




End RegistryProperties.

(** * Properties of shadow-node construction *)

Section ShadowNodeProperties.

Import TextureDefinitionBase CompositorShadowNode.

Context `{C : Collaborators}.

(** ** Running the building blocks *)

Lemma bind_run {A B} (m : M A) (f : A -> M B) (h : Trace) :
  bind m f h =
    match m h with
    | (Ok a, t1) => (fst (f a (h ++ t1)), t1 ++ snd (f a (h ++ t1)))
    | (Throw e, t1) => (Throw e, t1)
    end.
Proof.
  unfold bind. destruct (m h) as [[a | e] t1]; [| done].
  by destruct (f a (h ++ t1)).
Qed.

Lemma bind_Ok {A B} (m : M A) (f : A -> M B) (h : Trace) (b : B) (tr : Trace) :
  bind m f h = (Ok b, tr) ->
  exists a t1 t2,
    m h = (Ok a, t1) /\ f a (h ++ t1) = (Ok b, t2) /\ tr = t1 ++ t2.
Proof.
  rewrite bind_run. destruct (m h) as [[a | e] t1]; [| discriminate].
  destruct (f a (h ++ t1)) as [r t2] eqn:Hf. simpl.
  intros [= -> <-]. by exists a, t1, t2.
Qed.

Lemma bind_Throw {A B} (m : M A) (f : A -> M B) (h : Trace) (e : Exception)
    (tr : Trace) :
  bind m f h = (Throw e, tr) ->
  m h = (Throw e, tr) \/
  exists a t1 t2,
    m h = (Ok a, t1) /\ f a (h ++ t1) = (Throw e, t2) /\ tr = t1 ++ t2.
Proof.
  rewrite bind_run. destruct (m h) as [[a | e'] t1].
  - destruct (f a (h ++ t1)) as [r t2] eqn:Hf. simpl.
    intros [= -> <-]. right. by exists a, t1, t2.
  - intros [= -> ->]. by left.
Qed.

Lemma createManual_run (args : ManualTextureArgs) (h : Trace) :
  createManual args h =
    if accepts h (CreateManual args)
    then (Ok {| tex_serial := length h; tex_args := args |},
          [mkEvent (CreateManual args) true])
    else (Throw BackendAllocationError, [mkEvent (CreateManual args) false]).
Proof.
  unfold createManual, bind, call, ret.
  by destruct (accepts h (CreateManual args)).
Qed.

Lemma createMultiRenderTarget_run (name : string) (h : Trace) :
  createMultiRenderTarget name h =
    if accepts h (CreateMultiRenderTarget name)
    then (Ok {| mrt_serial := length h; mrt_name := name |},
          [mkEvent (CreateMultiRenderTarget name) true])
    else (Throw BackendAllocationError,
          [mkEvent (CreateMultiRenderTarget name) false]).
Proof.
  unfold createMultiRenderTarget, bind, call, ret.
  by destruct (accepts h (CreateMultiRenderTarget name)).
Qed.

Lemma bindSurface_run (mrt : MultiRenderTarget) (attachment : nat)
    (rt : RenderTexture) (h : Trace) :
  bindSurface mrt attachment rt h =
    if accepts h (BindSurface mrt attachment rt)
    then (Ok tt, [mkEvent (BindSurface mrt attachment rt) true])
    else (Throw BackendAllocationError,
          [mkEvent (BindSurface mrt attachment rt) false]).
Proof.
  unfold bindSurface, bind, call, ret.
  by destruct (accepts h (BindSurface mrt attachment rt)).
Qed.

Lemma initializePasses_run (channels : list CompositorChannel) (h : Trace) :
  initializePasses channels h =
    if accepts h (InitializePasses channels)
    then (Ok tt, [mkEvent (InitializePasses channels) true])
    else (Throw BackendAllocationError,
          [mkEvent (InitializePasses channels) false]).
Proof.
  unfold initializePasses, bind, call, ret.
  by destruct (accepts h (InitializePasses channels)).
Qed.

(** The multi-render-target branch is taken for every format list whose
    length is not 1, the empty one included. *)
Lemma createChannel_mrt_branch (id : IdType) (itor : ShadowMapTexDef) :
  length (formatList itor) <> 1%nat ->
  createChannel id itor =
    (mrt <- createMultiRenderTarget (textureName id (name itor)) ;;
     mrtLoop (textureName id (name itor)) itor mrt 0 (formatList itor)
       {| target := MRTTarget mrt; textures := [] |}).
Proof.
  unfold createChannel. intros Hlen.
  destruct (formatList itor) as [| pix0 [| pix1 pixels]]; simpl in *; done.
Qed.

Lemma createChannel_single_branch (id : IdType) (itor : ShadowMapTexDef)
    (format0 : PixelFormat) :
  formatList itor = [format0] ->
  createChannel id itor =
    (tex <- createManual (manualArgs (textureName id (name itor)) itor format0) ;;
     ret {| target := TextureTarget (mkRenderTexture tex);
            textures := [tex] |}).
Proof. unfold createChannel. by intros ->. Qed.

(** ** What every run emits *)

Lemma emits_ret {A} (P : Event -> Prop) (a : A) : emits P (ret a).
Proof. intros h. constructor. Qed.

Lemma emits_call (P : Event -> Prop) (c : ExternalCall) :
  (forall ok, P (mkEvent c ok)) -> emits P (call c).
Proof.
  intros HP h. unfold call. destruct (accepts h c); simpl; repeat constructor; done.
Qed.

Lemma emits_bind {A B} (P : Event -> Prop) (m : M A) (f : A -> M B) :
  emits P m -> (forall a, emits P (f a)) -> emits P (bind m f).
Proof.
  intros Hm Hf h. rewrite bind_run. specialize (Hm h).
  destruct (m h) as [[a | e] t1]; simpl in *; [| done].
  apply Forall_app. split; [done | apply Hf].
Qed.

Lemma faithful_ret {A} (a : A) : faithful (ret a).
Proof. intros h. constructor. Qed.

Lemma faithful_call (c : ExternalCall) : faithful (call c).
Proof.
  intros h. unfold call. destruct (accepts h c).
  - by repeat constructor.
  - split; [done |]. exists (mkEvent c false). split; [| done].
    by apply list_elem_of_singleton.
Qed.

Lemma faithful_bind {A B} (m : M A) (f : A -> M B) :
  faithful m -> (forall a, faithful (f a)) -> faithful (bind m f).
Proof.
  intros Hm Hf h. rewrite bind_run. specialize (Hm h).
  destruct (m h) as [[a | e] t1]; [| done].
  specialize (Hf a (h ++ t1)).
  destruct (f a (h ++ t1)) as [[b | e] t2]; simpl.
  - apply Forall_app. done.
  - destruct Hf as [-> (ev & Hin & Hno)]. split; [done |].
    exists ev. split; [| done]. apply elem_of_app. by right.
Qed.

Lemma someCallThrew_not_all_ok (tr : Trace) :
  someCallThrew tr -> Forall (fun ev => ev_ok ev = true) tr -> False.
Proof.
  intros (ev & Hin & Hno) Hall.
  rewrite Forall_forall in Hall. specialize (Hall ev Hin). congruence.
Qed.

(** ** The building blocks are faithful *)

Lemma faithful_createManual (args : ManualTextureArgs) :
  faithful (createManual args).
Proof.
  apply faithful_bind; [apply faithful_call | intros; apply faithful_ret].
Qed.

Lemma faithful_createMultiRenderTarget (name : string) :
  faithful (createMultiRenderTarget name).
Proof.
  apply faithful_bind; [apply faithful_call | intros; apply faithful_ret].
Qed.

Lemma faithful_bindSurface (mrt : MultiRenderTarget) (attachment : nat)
    (rt : RenderTexture) :
  faithful (bindSurface mrt attachment rt).
Proof.
  apply faithful_bind; [apply faithful_call | intros; apply faithful_ret].
Qed.

Lemma faithful_initializePasses (channels : list CompositorChannel) :
  faithful (initializePasses channels).
Proof.
  apply faithful_bind; [apply faithful_call | intros; apply faithful_ret].
Qed.

Lemma faithful_mrtLoop (tn : string) (itor : ShadowMapTexDef)
    (mrt : MultiRenderTarget) (pixels : list PixelFormat) :
  forall (rtNum : nat) (ch : CompositorChannel),
    faithful (mrtLoop tn itor mrt rtNum pixels ch).
Proof.
  induction pixels as [| pix pixels IH]; intros rtNum ch; simpl.
  - apply faithful_ret.
  - apply faithful_bind; [apply faithful_createManual | intros tex].
    apply faithful_bind; [apply faithful_bindSurface | intros _].
    apply IH.
Qed.

Lemma faithful_createChannel (id : IdType) (itor : ShadowMapTexDef) :
  faithful (createChannel id itor).
Proof.
  destruct (decide (length (formatList itor) = 1%nat)) as [Hone | Hmrt].
  - destruct (formatList itor) as [| format0 [| ? ?]] eqn:Hfl; try done.
    rewrite (createChannel_single_branch id itor format0 Hfl).
    apply faithful_bind; [apply faithful_createManual | intros; apply faithful_ret].
  - rewrite (createChannel_mrt_branch id itor Hmrt).
    apply faithful_bind; [apply faithful_createMultiRenderTarget | intros mrt].
    apply faithful_mrtLoop.
Qed.

Lemma faithful_shadowMapLoop (id : IdType) (defs : list ShadowMapTexDef) :
  forall acc : list CompositorChannel, faithful (shadowMapLoop id defs acc).
Proof.
  induction defs as [| itor defs IH]; intros acc; simpl.
  - apply faithful_ret.
  - apply faithful_bind; [apply faithful_createChannel | intros ch; apply IH].
Qed.

Lemma faithful_ctor (id : IdType) (definition : CompositorShadowNodeDef) :
  faithful (ctor id definition).
Proof.
  unfold ctor.
  apply faithful_bind; [apply faithful_shadowMapLoop | intros channels].
  apply faithful_bind; [apply faithful_initializePasses | intros _].
  apply faithful_ret.
Qed.

(** ** The creation loops never trigger pass initialisation *)

Lemma emits_createChannel (P : Event -> Prop) (id : IdType)
    (itor : ShadowMapTexDef) :
  (forall name pix ok, P (mkEvent (CreateManual (manualArgs name itor pix)) ok)) ->
  (forall name ok, P (mkEvent (CreateMultiRenderTarget name) ok)) ->
  (forall mrt k rt ok, P (mkEvent (BindSurface mrt k rt) ok)) ->
  emits P (createChannel id itor).
Proof.
  intros Hman Hmrt Hbind.
  assert (Hloop : forall mrt pixels rtNum ch,
            emits P (mrtLoop (textureName id (name itor)) itor mrt rtNum pixels ch)).
  { intros mrt pixels. induction pixels as [| pix pixels IH]; intros rtNum ch; simpl.
    - apply emits_ret.
    - apply emits_bind.
      { apply emits_bind; [by apply emits_call | intros; apply emits_ret]. }
      intros tex. apply emits_bind; [| intros _; apply IH].
      apply emits_bind; [by apply emits_call | intros; apply emits_ret]. }
  destruct (decide (length (formatList itor) = 1%nat)) as [Hone | Hne].
  - destruct (formatList itor) as [| format0 [| ? ?]] eqn:Hfl; try done.
    rewrite (createChannel_single_branch id itor format0 Hfl).
    apply emits_bind; [| intros; apply emits_ret].
    apply emits_bind; [by apply emits_call | intros; apply emits_ret].
  - rewrite (createChannel_mrt_branch id itor Hne).
    apply emits_bind; [| intros mrt; apply Hloop].
    apply emits_bind; [by apply emits_call | intros; apply emits_ret].
Qed.

Lemma emits_shadowMapLoop (P : Event -> Prop) (id : IdType)
    (defs : list ShadowMapTexDef) :
  (forall itor, itor ∈ defs -> emits P (createChannel id itor)) ->
  forall acc, emits P (shadowMapLoop id defs acc).
Proof.
  induction defs as [| itor defs IH]; intros Hbody acc; simpl.
  - apply emits_ret.
  - apply emits_bind; [apply Hbody; apply elem_of_cons; by left |].
    intros ch. apply IH. intros itor' Hin. apply Hbody.
    apply elem_of_cons. by right.
Qed.

Lemma passInitializations_none (tr : Trace) :
  Forall notInitializePasses tr -> passInitializations tr = [].
Proof.
  induction 1 as [| [c ok] tr Hev _ IH]; [done |].
  unfold passInitializations, notInitializePasses in *.
  destruct c; simpl in *; done.
Qed.

Lemma shadowMapLoop_notInitializePasses (id : IdType)
    (defs : list ShadowMapTexDef) (acc : list CompositorChannel) (h : Trace) :
  Forall notInitializePasses (snd (shadowMapLoop id defs acc h)).
Proof.
  apply emits_shadowMapLoop. intros itor _.
  apply emits_createChannel; intros; exact I.
Qed.

(** ** Reading a trace event by event *)

Lemma requestedNames_cons (ev : Event) (tr : Trace) :
  requestedNames (ev :: tr) =
    match requestedName ev with
    | Some n => n :: requestedNames tr
    | None => requestedNames tr
    end.
Proof. reflexivity. Qed.

Lemma requestedNames_app (t1 t2 : Trace) :
  requestedNames (t1 ++ t2) = requestedNames t1 ++ requestedNames t2.
Proof. apply omap_app. Qed.

Lemma requestedTextures_cons (ev : Event) (tr : Trace) :
  requestedTextures (ev :: tr) =
    match ev_call ev with
    | CreateManual args => args :: requestedTextures tr
    | _ => requestedTextures tr
    end.
Proof. unfold requestedTextures. simpl. by destruct (ev_call ev). Qed.

Lemma requestedContainers_cons (ev : Event) (tr : Trace) :
  requestedContainers (ev :: tr) =
    match ev_call ev with
    | CreateMultiRenderTarget name => name :: requestedContainers tr
    | _ => requestedContainers tr
    end.
Proof. unfold requestedContainers. simpl. by destruct (ev_call ev). Qed.

Lemma boundSurfaces_cons (mrt : MultiRenderTarget) (ev : Event) (tr : Trace) :
  boundSurfaces mrt (ev :: tr) =
    match ev_call ev with
    | BindSurface m attachment rt =>
        if bool_decide (mrt_serial m = mrt_serial mrt) && ev_ok ev
        then (attachment, rt) :: boundSurfaces mrt tr
        else boundSurfaces mrt tr
    | _ => boundSurfaces mrt tr
    end.
Proof.
  unfold boundSurfaces. simpl. destruct (ev_call ev); try done.
  by destruct (_ && _).
Qed.

Lemma passInitializations_app (t1 t2 : Trace) :
  passInitializations (t1 ++ t2)
  = passInitializations t1 ++ passInitializations t2.
Proof. apply omap_app. Qed.

(** ** Runs that return *)

(** A run of the inner loop that returns keeps the target, appends one
    texture per remaining format, each created under the base name
    followed by its ordinal, and binds each to the surface of that
    ordinal; it creates no container. *)
Lemma mrtLoop_Ok (tn : string) (itor : ShadowMapTexDef)
    (mrt : MultiRenderTarget) (pixels : list PixelFormat) :
  forall (rtNum : nat) (ch : CompositorChannel) (h : Trace)
         (ch' : CompositorChannel) (tr : Trace),
    mrtLoop tn itor mrt rtNum pixels ch h = (Ok ch', tr) ->
    target ch' = target ch /\
    exists texs : list Texture,
      textures ch' = textures ch ++ texs
      /\ tex_args <$> texs
         = imap (fun k pix => manualArgs (tn +:+ toString (rtNum + k)) itor pix)
                pixels
      /\ requestedTextures tr = tex_args <$> texs
      /\ boundSurfaces mrt tr
         = imap (fun k tex => ((rtNum + k)%nat, mkRenderTexture tex)) texs
      /\ requestedContainers tr = [].
Proof.
  induction pixels as [| pix pixels IH]; intros rtNum ch h ch' tr Hrun.
  - simpl in Hrun. unfold ret in Hrun. injection Hrun as <- <-.
    split; [done |]. exists []. by rewrite app_nil_r.
  - simpl in Hrun.
    apply bind_Ok in Hrun as (tex & t1 & t2 & Hcreate & Hrest & ->).
    rewrite createManual_run in Hcreate.
    destruct (accepts h _); [| discriminate]. injection Hcreate as <- <-.
    apply bind_Ok in Hrest as ([] & t2' & t3 & Hbind & Hloop & ->).
    rewrite bindSurface_run in Hbind.
    destruct (accepts _ _); [| discriminate]. injection Hbind as <-.
    apply IH in Hloop as (Htarget & texs & Htexs & Hargs & Hreq & Hbound & Hcont).
    simpl in Htarget, Htexs. split; [done |].
    eexists (_ :: texs). split; [by rewrite Htexs, <- app_assoc |].
    split; [| split; [| split]].
    + rewrite fmap_cons, imap_cons, Hargs. simpl.
      rewrite Nat.add_0_r. f_equal.
      apply imap_ext. intros k pix' _. simpl. by rewrite Nat.add_succ_r.
    + cbn [app]. by rewrite requestedTextures_cons, requestedTextures_cons, Hreq.
    + cbn [app]. rewrite boundSurfaces_cons, boundSurfaces_cons. simpl.
      rewrite bool_decide_eq_true_2 by done. simpl.
      rewrite Hbound, Nat.add_0_r. f_equal.
      apply imap_ext. intros k tex' _. simpl. by rewrite Nat.add_succ_r.
    + cbn [app]. by rewrite requestedContainers_cons, requestedContainers_cons.
Qed.

(** The single-texture branch, when it returns. *)
Lemma createChannel_single_Ok (id : IdType) (itor : ShadowMapTexDef)
    (format0 : PixelFormat) (h : Trace) (ch : CompositorChannel) (tr : Trace) :
  formatList itor = [format0] ->
  createChannel id itor h = (Ok ch, tr) ->
  let args := manualArgs (textureName id (name itor)) itor format0 in
  let tex := {| tex_serial := length h; tex_args := args |} in
  ch = {| target := TextureTarget (mkRenderTexture tex); textures := [tex] |}
  /\ tr = [mkEvent (CreateManual args) true].
Proof.
  intros Hfl Hrun. rewrite (createChannel_single_branch id itor format0 Hfl) in Hrun.
  apply bind_Ok in Hrun as (tex & t1 & t2 & Hcreate & Hret & ->).
  rewrite createManual_run in Hcreate.
  destruct (accepts h _); [| discriminate]. injection Hcreate as <- <-.
  unfold ret in Hret. injection Hret as <- <-. done.
Qed.

(** The multi-render-target branch, when it returns. *)
Lemma createChannel_mrt_Ok (id : IdType) (itor : ShadowMapTexDef)
    (h : Trace) (ch : CompositorChannel) (tr : Trace) :
  length (formatList itor) <> 1%nat ->
  createChannel id itor h = (Ok ch, tr) ->
  let base := textureName id (name itor) in
  let mrt := {| mrt_serial := length h; mrt_name := base |} in
  target ch = MRTTarget mrt
  /\ (exists tr', tr = mkEvent (CreateMultiRenderTarget base) true :: tr')
  /\ requestedContainers tr = [base]
  /\ tex_args <$> textures ch
     = imap (fun k pix => manualArgs (base +:+ toString k) itor pix)
            (formatList itor)
  /\ requestedTextures tr = tex_args <$> textures ch
  /\ boundSurfaces mrt tr
     = imap (fun k tex => (k, mkRenderTexture tex)) (textures ch).
Proof.
  intros Hne Hrun. rewrite (createChannel_mrt_branch id itor Hne) in Hrun.
  apply bind_Ok in Hrun as (mrt & t1 & t2 & Hcreate & Hloop & ->).
  rewrite createMultiRenderTarget_run in Hcreate.
  destruct (accepts h _); [| discriminate]. injection Hcreate as <- <-.
  apply mrtLoop_Ok in Hloop as (Htarget & texs & Htexs & Hargs & Hreq & Hbound & Hcont).
  simpl in Htarget, Htexs. rewrite Htexs.
  split; [done |]. split; [by eexists |].
  split; [by cbn [app]; rewrite requestedContainers_cons; simpl; rewrite Hcont |].
  split; [done |].
  cbn [app]. rewrite requestedTextures_cons, boundSurfaces_cons. simpl.
  split; [done |]. rewrite Hbound. by apply imap_ext.
Qed.

(** A run of the outer loop that returns has appended one channel per
    definition, in order: the channel at position [i] is what the loop
    body returned for the definition at position [i]. *)
Lemma shadowMapLoop_Ok (id : IdType) (defs : list ShadowMapTexDef) :
  forall (acc : list CompositorChannel) (h : Trace)
         (channels : list CompositorChannel) (tr : Trace),
    shadowMapLoop id defs acc h = (Ok channels, tr) ->
    exists news : list CompositorChannel,
      channels = acc ++ news
      /\ length news = length defs
      /\ forall (i : nat) (itor : ShadowMapTexDef),
           defs !! i = Some itor ->
           exists ch pre seg post,
             news !! i = Some ch
             /\ createChannel id itor (h ++ pre) = (Ok ch, seg)
             /\ tr = pre ++ seg ++ post.
Proof.
  induction defs as [| itor0 defs IH]; intros acc h channels tr Hrun.
  - simpl in Hrun. unfold ret in Hrun. injection Hrun as <- <-.
    exists []. rewrite app_nil_r. split; [done |]. split; [done |].
    intros i itor Hi. by rewrite lookup_nil in Hi.
  - simpl in Hrun.
    apply bind_Ok in Hrun as (ch0 & t1 & t2 & Hbody & Hrest & ->).
    apply IH in Hrest as (news & -> & Hlen & Hnth).
    exists (ch0 :: news). split; [by rewrite <- app_assoc |].
    split; [simpl; by rewrite Hlen |].
    intros [| i] itor Hi; simpl in Hi.
    + injection Hi as <-. exists ch0, [], t1, t2.
      by rewrite app_nil_r.
    + destruct (Hnth i itor Hi) as (ch & pre & seg & post & Hch & Hseg & ->).
      exists ch, (t1 ++ pre), seg, post.
      split; [done |]. split; [by rewrite app_assoc |].
      by rewrite <- app_assoc.
Qed.

(** The two ways a run of the constructor can go. *)
Lemma ctor_run (id : IdType) (definition : CompositorShadowNodeDef)
    (h : Trace) (r : Result CompositorShadowNode.t) (tr : Trace) :
  ctor id definition h = (r, tr) ->
  (exists e,
      shadowMapLoop id (mShadowMapTexDefinitions definition) [] h = (Throw e, tr)
      /\ r = Throw e) \/
  (exists channels t1,
      shadowMapLoop id (mShadowMapTexDefinitions definition) [] h
        = (Ok channels, t1)
      /\ tr = t1 ++ [mkEvent (InitializePasses channels)
                       (accepts (h ++ t1) (InitializePasses channels))]
      /\ r = if accepts (h ++ t1) (InitializePasses channels)
             then Ok {| mId := id; mName := getName definition;
                        mDefinition := definition;
                        mLocalTextures := channels |}
             else Throw BackendAllocationError).
Proof.
  unfold ctor. rewrite bind_run. simpl.
  destruct (shadowMapLoop _ _ _ _) as [[channels | e] t1].
  - rewrite bind_run, initializePasses_run.
    destruct (accepts (h ++ t1) (InitializePasses channels)) eqn:Hacc; simpl;
      intros [= <- <-]; right; exists channels, t1; by rewrite Hacc.
  - intros [= <- <-]. left. by exists e.
Qed.

Lemma ctor_Ok (id : IdType) (definition : CompositorShadowNodeDef)
    (h : Trace) (node : CompositorShadowNode.t) (tr : Trace) :
  ctor id definition h = (Ok node, tr) ->
  exists t1,
    shadowMapLoop id (mShadowMapTexDefinitions definition) [] h
      = (Ok (mLocalTextures node), t1)
    /\ tr = t1 ++ [mkEvent (InitializePasses (mLocalTextures node)) true]
    /\ mId node = id /\ mDefinition node = definition.
Proof.
  intros Hrun. apply ctor_run in Hrun as [(e & _ & ?) | (channels & t1 & Hloop & -> & Hr)];
    [discriminate |].
  destruct (accepts _ _); [| discriminate].
  injection Hr as ->. by exists t1.
Qed.

(** With a backend that lets every call return, construction returns. *)
Lemma faithful_all_accepted {A} (m : M A) (h : Trace) :
  faithful m ->
  (forall ev, ev ∈ snd (m h) -> ev_ok ev = true) ->
  exists a, fst (m h) = Ok a.
Proof.
  intros Hm Hall. specialize (Hm h).
  destruct (m h) as [[a | e] tr]; simpl in *; [by exists a |].
  destruct Hm as [_ (ev & Hin & Hno)]. specialize (Hall ev Hin). congruence.
Qed.

(** ** Failure of construction *)

(** C2.  If any external call (texture creation, container creation,
    surface binding) throws while the node is being constructed, the
    constructor itself ends with [BackendAllocationError]: its caller gets
    no node, hence no channel collection at all.  A node is only ever
    returned from a run in which every call returned, and it then holds a
    channel for every definition. *)
Theorem ctor_fails_atomically (id : IdType)
    (definition : CompositorShadowNodeDef) (h : Trace)
    (r : Result CompositorShadowNode.t) (tr : Trace) :
  ctor id definition h = (r, tr) ->
  (someCallThrew tr -> r = Throw BackendAllocationError)
  /\ (forall node, r = Ok node ->
        Forall (fun ev => ev_ok ev = true) tr
        /\ length (mLocalTextures node)
           = length (mShadowMapTexDefinitions definition)).
Proof.
  intros Hrun. pose proof (faithful_ctor id definition h) as Hf.
  rewrite Hrun in Hf. split.
  - intros Hthrew. destruct r as [node | e].
    + destruct (someCallThrew_not_all_ok tr Hthrew Hf).
    + by destruct Hf as [-> _].
  - intros node ->. split; [done |].
    apply ctor_Ok in Hrun as (t1 & Hloop & _).
    apply shadowMapLoop_Ok in Hloop as (news & Hnews & Hlen & _).
    simpl in Hnews. by rewrite Hnews.
Qed.

(** ** One channel per definition *)

(** The channels of a node that was returned, definition by definition. *)
Lemma ctor_Ok_channels (id : IdType)
    (definition : CompositorShadowNodeDef) (h : Trace)
    (node : CompositorShadowNode.t) (tr : Trace) :
  ctor id definition h = (Ok node, tr) ->
  length (mLocalTextures node) = length (mShadowMapTexDefinitions definition)
  /\ forall (i : nat) (itor : ShadowMapTexDef),
       mShadowMapTexDefinitions definition !! i = Some itor ->
       exists ch pre seg post,
         mLocalTextures node !! i = Some ch
         /\ createChannel id itor (h ++ pre) = (Ok ch, seg)
         /\ tr = pre ++ seg ++ post.
Proof.
  intros Hrun. apply ctor_Ok in Hrun as (t1 & Hloop & -> & _).
  apply shadowMapLoop_Ok in Hloop as (news & Hnews & Hlen & Hnth).
  simpl in Hnews. subst news. split; [done |].
  intros i itor Hi.
  destruct (Hnth i itor Hi) as (ch & pre & seg & post & Hch & Hseg & ->).
  exists ch, pre, seg, (post ++ [mkEvent (InitializePasses (mLocalTextures node)) true]).
  split; [done |]. split; [done |]. by rewrite <- !app_assoc.
Qed.

(** C4.  A construction that returns has appended exactly one channel per
    definition, in definition order: the collection is as long as the
    definition list and the channel at index [i] is the one the loop body
    returned for the definition at index [i], at the point [pre] of the
    run where that definition was reached. *)
Theorem ctor_channel_per_definition (id : IdType)
    (definition : CompositorShadowNodeDef) (h : Trace)
    (node : CompositorShadowNode.t) (tr : Trace) :
  ctor id definition h = (Ok node, tr) ->
  length (mLocalTextures node) = length (mShadowMapTexDefinitions definition)
  /\ forall (i : nat) (itor : ShadowMapTexDef),
       mShadowMapTexDefinitions definition !! i = Some itor ->
       exists ch pre seg post,
         mLocalTextures node !! i = Some ch
         /\ createChannel id itor (h ++ pre) = (Ok ch, seg)
         /\ tr = pre ++ seg ++ post.
Proof. apply ctor_Ok_channels. Qed.

(** ** Pass initialisation *)

(** The only invocation of the trigger in a trace that ends with it. *)
Lemma initializePasses_is_last (t1 pre post : Trace) (ev0 ev : Event) :
  Forall notInitializePasses t1 ->
  t1 ++ [ev0] = pre ++ ev :: post ->
  ~ notInitializePasses ev ->
  pre = t1 /\ ev = ev0 /\ post = [].
Proof.
  intros Hquiet. revert pre.
  induction Hquiet as [| e t1 He Hquiet IH]; intros pre Heq Hev.
  - destruct pre as [| e' pre]; simpl in Heq.
    + by injection Heq as <- <-.
    + injection Heq as _ Heq. by destruct pre.
  - destruct pre as [| e' pre]; simpl in Heq.
    + injection Heq as <- _. contradiction.
    + injection Heq as <- Heq.
      destruct (IH pre Heq Hev) as (-> & -> & ->). done.
Qed.

(** C5.  In every run of the constructor the pass-initialisation trigger
    is invoked at most once, as the last call, after every creation call
    has returned, and the collection it sees holds a channel for every
    definition; a run that returns a node has invoked it exactly once,
    with the collection of that node. *)
Theorem initializePasses_once_after_all_channels (id : IdType)
    (definition : CompositorShadowNodeDef) (h : Trace)
    (r : Result CompositorShadowNode.t) (tr : Trace) :
  ctor id definition h = (r, tr) ->
  (forall pre ev post channels,
      tr = pre ++ ev :: post ->
      ev_call ev = InitializePasses channels ->
      post = []
      /\ passInitializations pre = []
      /\ Forall (fun e => ev_ok e = true) pre
      /\ shadowMapLoop id (mShadowMapTexDefinitions definition) [] h
         = (Ok channels, pre)
      /\ length channels = length (mShadowMapTexDefinitions definition))
  /\ (length (passInitializations tr) <= 1)%nat
  /\ (forall node, r = Ok node ->
        passInitializations tr = [mLocalTextures node]
        /\ exists pre,
             tr = pre ++ [mkEvent (InitializePasses (mLocalTextures node)) true]).
Proof.
  intros Hrun.
  pose proof (shadowMapLoop_notInitializePasses id
                (mShadowMapTexDefinitions definition) [] h) as Hquiet.
  pose proof (faithful_shadowMapLoop id
                (mShadowMapTexDefinitions definition) [] h) as Hf.
  apply ctor_run in Hrun
    as [(e & Hloop & ->) | (channels & t1 & Hloop & -> & Hr)];
    rewrite Hloop in Hquiet, Hf; simpl in Hquiet.
  - split; [| split].
    + intros pre ev post chs -> Hev.
      apply Forall_app in Hquiet as [_ Hq]. apply Forall_cons in Hq as [Hq _].
      unfold notInitializePasses in Hq. by rewrite Hev in Hq.
    + rewrite passInitializations_none by done. simpl. lia.
    + intros node. discriminate.
  - assert (Hone : passInitializations
                     (t1 ++ [mkEvent (InitializePasses channels)
                               (accepts (h ++ t1) (InitializePasses channels))])
                   = [channels]).
    { by rewrite passInitializations_app, passInitializations_none. }
    split; [| split].
    + intros pre ev post chs Heq Hev.
      apply initializePasses_is_last in Heq as (-> & -> & ->); [| done |].
      * simpl in Hev. injection Hev as <-.
        split; [done |]. split; [by apply passInitializations_none |].
        split; [done |]. split; [done |].
        apply shadowMapLoop_Ok in Hloop as (news & -> & Hlen & _). by simpl.
      * unfold notInitializePasses. rewrite Hev. tauto.
    + rewrite Hone. simpl. lia.
    + intros node ->. destruct (accepts _ _); [| discriminate].
      injection Hr as ->. simpl. split; [done |]. by exists t1.
Qed.

(** ** Multi-render-target channels *)

(** C3.  For a definition with more than one format, a construction that
    returns has created one container, named by the channel's base name,
    and one texture per format, in list order: the texture for the format
    at position [k] is created under the base name followed by the
    ordinal [k], its render target is bound as surface [k] of the
    container, and the channel's texture list holds exactly these
    textures in the same order. *)
Theorem ctor_mrt_channel (id : IdType) (definition : CompositorShadowNodeDef)
    (h : Trace) (node : CompositorShadowNode.t) (tr : Trace)
    (i : nat) (itor : ShadowMapTexDef) :
  ctor id definition h = (Ok node, tr) ->
  mShadowMapTexDefinitions definition !! i = Some itor ->
  (1 < length (formatList itor))%nat ->
  let base := textureName id (name itor) in
  exists ch mrt pre seg post,
    mLocalTextures node !! i = Some ch
    /\ tr = pre ++ seg ++ post
    /\ createChannel id itor (h ++ pre) = (Ok ch, seg)
    /\ target ch = MRTTarget mrt
    /\ mrt_name mrt = base
    /\ requestedContainers seg = [base]
    /\ requestedTextures seg = tex_args <$> textures ch
    /\ length (textures ch) = length (formatList itor)
    /\ tex_args <$> textures ch
       = imap (fun k pix => manualArgs (base +:+ toString k) itor pix)
              (formatList itor)
    /\ boundSurfaces mrt seg
       = imap (fun k tex => (k, mkRenderTexture tex)) (textures ch)
    /\ forall (k : nat) (pix : PixelFormat),
         formatList itor !! k = Some pix ->
         exists tex,
           textures ch !! k = Some tex
           /\ arg_name (tex_args tex) = base +:+ toString k
           /\ arg_format (tex_args tex) = pix
           /\ boundSurfaces mrt seg !! k = Some (k, mkRenderTexture tex).
Proof.
  intros Hrun Hi Hlen base.
  destruct (ctor_Ok_channels id definition h node tr Hrun) as [_ Hnth].
  destruct (Hnth i itor Hi) as (ch & pre & seg & post & Hch & Hseg & ->).
  pose proof (createChannel_mrt_Ok id itor (h ++ pre) ch seg ltac:(lia) Hseg)
    as (Htarget & _ & Hcont & Hargs & Hreq & Hbound).
  fold base in Htarget, Hcont, Hargs, Hbound.
  assert (Hlength : length (textures ch) = length (formatList itor)).
  { rewrite <- (length_fmap tex_args), Hargs. apply length_imap. }
  eexists ch, _, pre, seg, post.
  repeat (split; [done |]).
  intros k pix Hk.
  assert (Hlook : (tex_args <$> textures ch) !! k
                  = Some (manualArgs (base +:+ toString k) itor pix)).
  { by rewrite Hargs, list_lookup_imap, Hk. }
  rewrite list_lookup_fmap in Hlook.
  apply fmap_Some in Hlook as (tex & Htex & Htexargs).
  exists tex. split; [done |]. rewrite <- Htexargs. split; [done |]. split; [done |].
  by rewrite Hbound, list_lookup_imap, Htex.
Qed.

(** ** Empty format lists *)

Lemma returns_bind {A B} (m : M A) (f : A -> M B) :
  returns m -> (forall a, returns (f a)) -> returns (bind m f).
Proof.
  intros Hm Hf h. rewrite bind_run. destruct (Hm h) as [a Ha].
  destruct (m h) as [[a' | e] t1]; simpl in Ha; [| discriminate].
  apply Hf.
Qed.

Lemma returns_call_ret {A} (c : ExternalCall) (f : nat -> A) :
  (forall h' c', accepts h' c' = true) ->
  returns (serial <- call c ;; ret (f serial)).
Proof.
  intros Hall h. unfold bind, call, ret. rewrite Hall. simpl. by eexists.
Qed.

Lemma returns_ctor (id : IdType) (definition : CompositorShadowNodeDef) :
  (forall h' c', accepts h' c' = true) ->
  returns (ctor id definition).
Proof.
  intros Hall.
  assert (Hloop : forall tn itor mrt pixels rtNum ch,
            returns (mrtLoop tn itor mrt rtNum pixels ch)).
  { intros tn itor mrt pixels.
    induction pixels as [| pix pixels IH]; intros rtNum ch; simpl.
    - intros h. by eexists.
    - apply returns_bind; [by apply returns_call_ret | intros tex].
      apply returns_bind; [by apply returns_call_ret | intros _; apply IH]. }
  assert (Hbody : forall itor, returns (createChannel id itor)).
  { intros itor.
    destruct (decide (length (formatList itor) = 1%nat)) as [Hone | Hne].
    - destruct (formatList itor) as [| format0 [| ? ?]] eqn:Hfl; try done.
      rewrite (createChannel_single_branch id itor format0 Hfl).
      apply returns_bind; [by apply returns_call_ret |].
      intros tex h. by eexists.
    - rewrite (createChannel_mrt_branch id itor Hne).
      apply returns_bind; [by apply returns_call_ret | intros mrt; apply Hloop]. }
  unfold ctor. apply returns_bind.
  - generalize (mLocalTextures
                  (CompositorNode_ctor id (getName definition) definition)).
    induction (mShadowMapTexDefinitions definition) as [| itor defs IH];
      intros acc; simpl.
    + intros h. by eexists.
    + apply returns_bind; [apply Hbody | intros ch; apply IH].
  - intros channels.
    apply returns_bind; [by apply returns_call_ret |].
    intros _ h. by eexists.
Qed.

(** C10.  A definition whose format list is empty takes the
    multi-render-target branch.  The loop body then makes a single call,
    the creation of the container, and returns a channel whose target is
    that container and whose texture list is empty; in a construction
    that returns, this channel sits at the index of the definition.  The
    target of a channel is a plain render texture exactly when the format
    list has length 1.  With a backend that lets every call return,
    construction returns whatever the format lists are. *)
Theorem ctor_empty_format_list (id : IdType)
    (definition : CompositorShadowNodeDef) (h : Trace) :
  (forall (itor : ShadowMapTexDef) (h' : Trace),
      formatList itor = [] ->
      let base := textureName id (name itor) in
      createChannel id itor h' =
        if accepts h' (CreateMultiRenderTarget base)
        then (Ok {| target := MRTTarget {| mrt_serial := length h';
                                           mrt_name := base |};
                    textures := [] |},
              [mkEvent (CreateMultiRenderTarget base) true])
        else (Throw BackendAllocationError,
              [mkEvent (CreateMultiRenderTarget base) false]))
  /\ (forall node tr (i : nat) (itor : ShadowMapTexDef),
        ctor id definition h = (Ok node, tr) ->
        mShadowMapTexDefinitions definition !! i = Some itor ->
        formatList itor = [] ->
        let base := textureName id (name itor) in
        exists pre post,
          mLocalTextures node !! i
          = Some {| target := MRTTarget {| mrt_serial := length (h ++ pre);
                                           mrt_name := base |};
                    textures := [] |}
          /\ tr = pre ++ [mkEvent (CreateMultiRenderTarget base) true] ++ post)
  /\ (forall node tr (i : nat) (itor : ShadowMapTexDef) (ch : CompositorChannel),
        ctor id definition h = (Ok node, tr) ->
        mShadowMapTexDefinitions definition !! i = Some itor ->
        mLocalTextures node !! i = Some ch ->
        (exists rt, target ch = TextureTarget rt)
        <-> length (formatList itor) = 1%nat)
  /\ ((forall h' c', accepts h' c' = true) ->
      exists node, fst (ctor id definition h) = Ok node).
Proof.
  assert (Hbody : forall (itor : ShadowMapTexDef) (h' : Trace),
      formatList itor = [] ->
      createChannel id itor h' =
        if accepts h' (CreateMultiRenderTarget (textureName id (name itor)))
        then (Ok {| target := MRTTarget {| mrt_serial := length h';
                                           mrt_name := textureName id (name itor) |};
                    textures := [] |},
              [mkEvent (CreateMultiRenderTarget (textureName id (name itor))) true])
        else (Throw BackendAllocationError,
              [mkEvent (CreateMultiRenderTarget (textureName id (name itor))) false])).
  { intros itor h' Hfl.
    rewrite (createChannel_mrt_branch id itor) by (by rewrite Hfl).
    rewrite bind_run, createMultiRenderTarget_run, Hfl.
    by destruct (accepts h' _). }
  split; [exact Hbody |]. split; [| split].
  - intros node tr i itor Hrun Hi Hfl base.
    destruct (ctor_Ok_channels id definition h node tr Hrun) as [_ Hnth].
    destruct (Hnth i itor Hi) as (ch & pre & seg & post & Hch & Hseg & ->).
    rewrite (Hbody itor (h ++ pre) Hfl) in Hseg. fold base in Hseg.
    destruct (accepts _ _); [| discriminate]. injection Hseg as <- <-.
    by exists pre, post.
  - intros node tr i itor ch Hrun Hi Hch.
    destruct (ctor_Ok_channels id definition h node tr Hrun) as [_ Hnth].
    destruct (Hnth i itor Hi) as (ch' & pre & seg & post & Hch' & Hseg & ->).
    assert (ch' = ch) as -> by congruence.
    destruct (decide (length (formatList itor) = 1%nat)) as [Hone | Hne].
    + split; [done | intros _].
      destruct (formatList itor) as [| format0 [| ? ?]] eqn:Hfl; try done.
      destruct (createChannel_single_Ok id itor format0 _ _ _ Hfl Hseg) as [-> _].
      by eexists.
    + split; [| done]. intros [rt Hrt].
      destruct (createChannel_mrt_Ok id itor _ _ _ Hne Hseg) as (Htarget & _).
      congruence.
  - intros Hall. apply (returns_ctor id definition Hall h).
Qed.

(** ** Names requested by a computation *)

Lemma requests_ret {A} (a : A) : requests [] (ret a).
Proof. intros h. split; [done | by intros _]. Qed.

Lemma requests_bind {A B} (e1 e2 : list string) (m : M A) (f : A -> M B) :
  requests e1 m -> (forall a, requests e2 (f a)) ->
  requests (e1 ++ e2) (bind m f).
Proof.
  intros Hm Hf h. rewrite bind_run. destruct (Hm h) as [Hpre Heq].
  destruct (m h) as [[a | e] t1]; simpl in *.
  - rewrite requestedNames_app, (Heq eq_refl).
    destruct (Hf a (h ++ t1)) as [Hpre2 Heq2].
    split; [by apply prefix_app | intros Hok; by rewrite Heq2].
  - split; [by apply prefix_app_r | done].
Qed.

Lemma requests_createManual (args : ManualTextureArgs) :
  requests [arg_name args] (createManual args).
Proof.
  intros h. rewrite createManual_run. by destruct (accepts h _).
Qed.

Lemma requests_createMultiRenderTarget (name : string) :
  requests [name] (createMultiRenderTarget name).
Proof.
  intros h. rewrite createMultiRenderTarget_run. by destruct (accepts h _).
Qed.

Lemma requests_bindSurface (mrt : MultiRenderTarget) (attachment : nat)
    (rt : RenderTexture) :
  requests [] (bindSurface mrt attachment rt).
Proof.
  intros h. rewrite bindSurface_run. by destruct (accepts h _).
Qed.

Lemma requests_initializePasses (channels : list CompositorChannel) :
  requests [] (initializePasses channels).
Proof.
  intros h. rewrite initializePasses_run. by destruct (accepts h _).
Qed.

Lemma requests_mrtLoop (tn : string) (itor : ShadowMapTexDef)
    (mrt : MultiRenderTarget) (pixels : list PixelFormat) :
  forall (rtNum : nat) (ch : CompositorChannel),
    requests (imap (fun k _ => tn +:+ toString (rtNum + k)) pixels)
             (mrtLoop tn itor mrt rtNum pixels ch).
Proof.
  induction pixels as [| pix pixels IH]; intros rtNum ch; simpl.
  - apply requests_ret.
  - rewrite Nat.add_0_r.
    change (?x :: ?l) with ([x] ++ ([] ++ l)).
    apply requests_bind; [apply requests_createManual | intros tex].
    apply requests_bind; [apply requests_bindSurface | intros _].
    erewrite imap_ext; [apply (IH (S rtNum)) |].
    intros k pix' _. simpl. by rewrite Nat.add_succ_r.
Qed.

Lemma requests_createChannel (id : IdType) (itor : ShadowMapTexDef) :
  requests (channelNames id itor) (createChannel id itor).
Proof.
  unfold channelNames.
  destruct (decide (length (formatList itor) = 1%nat)) as [Hone | Hne].
  - destruct (formatList itor) as [| format0 [| ? ?]] eqn:Hfl; try done.
    rewrite (createChannel_single_branch id itor format0 Hfl).
    change [?x] with ([x] ++ []).
    apply requests_bind; [apply requests_createManual |].
    intros tex. apply requests_ret.
  - rewrite (createChannel_mrt_branch id itor Hne).
    assert (Hshape : forall base : string,
      match formatList itor with
      | [_] => [base]
      | pixels => base :: imap (fun k _ => base +:+ toString k) pixels
      end = [base] ++ imap (fun k _ => base +:+ toString (0 + k)) (formatList itor)).
    { intros base. by destruct (formatList itor) as [| ? [| ? ?]]. }
    rewrite Hshape.
    apply requests_bind; [apply requests_createMultiRenderTarget | intros mrt].
    apply requests_mrtLoop.
Qed.

Lemma requests_shadowMapLoop (id : IdType) (defs : list ShadowMapTexDef) :
  forall acc, requests (expectedNames id defs) (shadowMapLoop id defs acc).
Proof.
  induction defs as [| itor defs IH]; intros acc; simpl.
  - apply requests_ret.
  - unfold expectedNames. simpl.
    apply requests_bind; [apply requests_createChannel | intros ch; apply IH].
Qed.

Lemma requests_ctor (id : IdType) (definition : CompositorShadowNodeDef) :
  requests (expectedNames id (mShadowMapTexDefinitions definition))
           (ctor id definition).
Proof.
  unfold ctor.
  rewrite <- (app_nil_r (expectedNames _ _)).
  apply requests_bind; [apply requests_shadowMapLoop | intros channels].
  change (@nil string) with (@nil string ++ []).
  apply requests_bind; [apply requests_initializePasses |].
  intros _. apply requests_ret.
Qed.

End ShadowNodeProperties.

(** * Reading a concrete trace *)

Section SampleCollaborators.

Import TextureDefinitionBase CompositorShadowNode.

(** A refused call is found in a concrete trace by evaluation. *)
Lemma someCallThrew_existsb (tr : Trace) :
  existsb (fun ev => negb (ev_ok ev)) tr = true -> someCallThrew tr.
Proof.
  intros Hex. apply existsb_exists in Hex as (ev & Hin & Hno).
  exists ev. split; [by apply list_elem_of_In |].
  by destruct (ev_ok ev).
Qed.

End SampleCollaborators.

(** * The model at concrete inputs *)

Section Evaluations.

Import TextureDefinitionBase CompositorShadowNode.

(** The spec's three-definition scenario: three channels in order, the
    first and the last with one texture and a render texture as target,
    the middle one with three textures behind a container. *)
Example sample_three_channels :
  exists node tr,
    @ctor (textual acceptAll) 7%N sampleDefinition [] = (Ok node, tr)
    /\ targetName <$> mLocalTextures node = ["near#7"; "mid#7"; "far#7"]
    /\ (fun ch => length (textures ch)) <$> mLocalTextures node = [1; 3; 1]%nat
    /\ requestedNames tr
       = ["near#7"; "mid#7"; "mid#70"; "mid#71"; "mid#72"; "far#7"].
Proof. eexists _, _. split; [vm_compute; reflexivity |]. by vm_compute. Qed.

(** The backend refuses the third call, the creation of the first texture
    of the three-format definition: the constructor throws. *)
Lemma ctor_fails_atomically_witness :
  fst (@ctor (textual (acceptFirst 2)) 7%N sampleDefinition [])
  = Throw BackendAllocationError.
Proof.
  refine (proj1 (@ctor_fails_atomically (textual (acceptFirst 2)) 7%N
                   sampleDefinition [] _ _ _) _).
  - apply surjective_pairing.
  - apply someCallThrew_existsb. vm_compute. reflexivity.
Defined.

(** Three definitions give three channels. *)
Lemma ctor_channel_per_definition_witness :
  exists node tr,
    @ctor (textual acceptAll) 7%N sampleDefinition [] = (Ok node, tr)
    /\ length (mLocalTextures node) = 3%nat.
Proof.
  eexists _, _. split; [vm_compute; reflexivity |].
  refine (proj1 (@ctor_channel_per_definition (textual acceptAll) 7%N
                   sampleDefinition [] _ _ _)).
  vm_compute. reflexivity.
Defined.

(** One invocation of the trigger, with the three channels of the node. *)
Lemma initializePasses_once_after_all_channels_witness :
  exists node tr,
    @ctor (textual acceptAll) 7%N sampleDefinition [] = (Ok node, tr)
    /\ passInitializations tr = [mLocalTextures node]
    /\ length (mLocalTextures node) = 3%nat.
Proof.
  eexists _, _. split; [vm_compute; reflexivity |].
  split; [| vm_compute; reflexivity].
  refine (proj1 (proj2 (proj2
    (@initializePasses_once_after_all_channels (textual acceptAll) 7%N
       sampleDefinition [] _ _ _)) _ eq_refl)).
  vm_compute. reflexivity.
Defined.

(** The channel of the three-format definition: three textures named by
    ordinal, bound to the surfaces 0, 1 and 2 of its container. *)
Lemma ctor_mrt_channel_witness :
  exists node tr ch,
    @ctor (textual acceptAll) 7%N sampleDefinition [] = (Ok node, tr)
    /\ mLocalTextures node !! 1%nat = Some ch
    /\ arg_name <$> (tex_args <$> textures ch) = ["mid#70"; "mid#71"; "mid#72"]
    /\ arg_format <$> (tex_args <$> textures ch) = [10%N; 11%N; 12%N]
    /\ exists mrt, target ch = MRTTarget mrt
         /\ fst <$> boundSurfaces mrt tr = [0; 1; 2]%nat.
Proof.
  eexists _, _.
  destruct (@ctor_mrt_channel (textual acceptAll) 7%N sampleDefinition []
              _ _ 1%nat (shadowDef "mid" [10%N; 11%N; 12%N])
              ltac:(vm_compute; reflexivity) eq_refl ltac:(simpl; lia))
    as (ch & mrt & pre & seg & post & Hch & Htr & Hseg & Htarget & Hname
        & Hcont & Hreq & Hlen & Hargs & Hbound & Hnth).
  exists ch. split; [reflexivity |]. split; [exact Hch |].
  rewrite Hargs. split; [vm_compute; reflexivity |].
  split; [vm_compute; reflexivity |].
  vm_compute in Hch. injection Hch as <-.
  eexists. split; [reflexivity |]. vm_compute. reflexivity.
Defined.

(** A definition without formats between two ordinary ones still gets its
    channel, an empty container, at index 1. *)
Lemma ctor_empty_format_list_witness :
  exists node tr,
    @ctor (textual acceptAll) 7%N emptyFormats [] = (Ok node, tr)
    /\ length (mLocalTextures node) = 3%nat
    /\ mLocalTextures node !! 1%nat
       = Some {| target := MRTTarget {| mrt_serial := 1; mrt_name := "none#7" |};
                 textures := [] |}.
Proof.
  eexists _, _. split; [vm_compute; reflexivity |].
  split; [vm_compute; reflexivity |].
  destruct (proj1 (proj2 (@ctor_empty_format_list (textual acceptAll) 7%N
                            emptyFormats []))
              _ _ 1%nat (shadowDef "none" [])
              ltac:(vm_compute; reflexivity) eq_refl eq_refl)
    as (pre & post & Hch & Htr).
  vm_compute. reflexivity.
Defined.

End Evaluations.

(** * Further properties of shadow-node construction *)

Section ShadowNodeRuns.

Import TextureDefinitionBase CompositorShadowNode.

Context `{C : Collaborators}.

(** ** The names requested *)

(** X1.  In every run the constructor requests resource names in the
    order of the definition list: for each definition its base name
    alone when it has one format, else its base name for the container
    followed by the base name with each ordinal.  Whatever the outcome,
    the names requested so far are an initial part of this list; a run
    that returns has requested all of them and no other. *)
Theorem ctor_requested_names (id : IdType)
    (definition : CompositorShadowNodeDef) (h : Trace)
    (r : Result CompositorShadowNode.t) (tr : Trace) :
  ctor id definition h = (r, tr) ->
  requestedNames tr
    `prefix_of` expectedNames id (mShadowMapTexDefinitions definition)
  /\ (forall node, r = Ok node ->
        requestedNames tr
        = expectedNames id (mShadowMapTexDefinitions definition)).
Proof.
  intros Hrun. destruct (requests_ctor id definition h) as [Hpre Heq].
  rewrite Hrun in Hpre, Heq. simpl in Hpre, Heq.
  split; [done |]. intros node ->. by apply Heq.
Qed.

(** ** The first refused call ends the run *)

Lemma stops_ret {A} (a : A) : stops (ret a).
Proof. intros h. constructor. Qed.

Lemma stops_call (c : ExternalCall) : stops (call c).
Proof.
  intros h. unfold call. destruct (accepts h c) eqn:Hacc.
  - by repeat constructor.
  - split; [done |]. exists [], (mkEvent c false).
    rewrite app_nil_r. by repeat split.
Qed.

Lemma stops_bind {A B} (m : M A) (f : A -> M B) :
  stops m -> (forall a, stops (f a)) -> stops (bind m f).
Proof.
  intros Hm Hf h. rewrite bind_run. specialize (Hm h).
  destruct (m h) as [[a | e] t1]; [| done].
  specialize (Hf a (h ++ t1)).
  destruct (f a (h ++ t1)) as [[b | e] t2]; simpl.
  - by apply Forall_app.
  - destruct Hf as (-> & pre & ev & -> & Hno & Hacc & Hpre).
    split; [done |]. exists (t1 ++ pre), ev.
    rewrite <- !app_assoc in *.
    repeat split; try done. by apply Forall_app.
Qed.

Lemma stops_call_ret {A} (c : ExternalCall) (f : nat -> A) :
  stops (serial <- call c ;; ret (f serial)).
Proof. apply stops_bind; [apply stops_call | intros; apply stops_ret]. Qed.

Lemma stops_createChannel (id : IdType) (itor : ShadowMapTexDef) :
  stops (createChannel id itor).
Proof.
  assert (Hloop : forall tn mrt pixels rtNum ch,
            stops (mrtLoop tn itor mrt rtNum pixels ch)).
  { intros tn mrt pixels.
    induction pixels as [| pix pixels IH]; intros rtNum ch; simpl.
    - apply stops_ret.
    - apply stops_bind; [apply stops_call_ret | intros tex].
      apply stops_bind; [apply stops_call_ret | intros _; apply IH]. }
  destruct (decide (length (formatList itor) = 1%nat)) as [Hone | Hne].
  - destruct (formatList itor) as [| format0 [| ? ?]] eqn:Hfl; try done.
    rewrite (createChannel_single_branch id itor format0 Hfl).
    apply stops_bind; [apply stops_call_ret | intros; apply stops_ret].
  - rewrite (createChannel_mrt_branch id itor Hne).
    apply stops_bind; [apply stops_call_ret | intros mrt; apply Hloop].
Qed.

Lemma stops_ctor (id : IdType) (definition : CompositorShadowNodeDef) :
  stops (ctor id definition).
Proof.
  unfold ctor. apply stops_bind.
  - generalize (mLocalTextures
                  (CompositorNode_ctor id (getName definition) definition)).
    induction (mShadowMapTexDefinitions definition) as [| itor defs IH];
      intros acc; simpl.
    + apply stops_ret.
    + apply stops_bind; [apply stops_createChannel | intros ch; apply IH].
  - intros channels.
    apply stops_bind; [apply stops_call_ret | intros; apply stops_ret].
Qed.

(** X5.  A construction that throws stops at the first call the backend
    refuses: the exception is [BackendAllocationError], the refused call
    is the last call of the run, every call before it returned, and no
    call is made after it. *)
Theorem ctor_stops_at_first_throw (id : IdType)
    (definition : CompositorShadowNodeDef) (h : Trace) (e : Exception)
    (tr : Trace) :
  ctor id definition h = (Throw e, tr) ->
  e = BackendAllocationError
  /\ exists pre ev,
       tr = pre ++ [ev]
       /\ ev_ok ev = false
       /\ accepts (h ++ pre) (ev_call ev) = false
       /\ Forall (fun ev' => ev_ok ev' = true) pre.
Proof.
  intros Hrun. pose proof (stops_ctor id definition h) as Hs.
  by rewrite Hrun in Hs.
Qed.

(** ** No definition at all *)

(** X8.  With an empty definition list the constructor makes a single
    call, the pass-initialisation trigger on an empty channel
    collection: it returns a node without channels when the trigger
    returns and throws when the trigger throws. *)
Theorem ctor_no_definitions (id : IdType)
    (definition : CompositorShadowNodeDef) (h : Trace) :
  mShadowMapTexDefinitions definition = [] ->
  ctor id definition h =
    if accepts h (InitializePasses [])
    then (Ok {| mId := id; mName := getName definition;
                mDefinition := definition; mLocalTextures := [] |},
          [mkEvent (InitializePasses []) true])
    else (Throw BackendAllocationError,
          [mkEvent (InitializePasses []) false]).
Proof.
  intros Hdefs. unfold ctor. rewrite Hdefs. simpl.
  rewrite bind_run. unfold ret at 1. simpl.
  rewrite bind_run, initializePasses_run, app_nil_r.
  by destruct (accepts h _).
Qed.

(** ** The calls made for one definition *)

Lemma requestedTextures_app (t1 t2 : Trace) :
  requestedTextures (t1 ++ t2) = requestedTextures t1 ++ requestedTextures t2.
Proof. apply omap_app. Qed.

Lemma requestedContainers_app (t1 t2 : Trace) :
  requestedContainers (t1 ++ t2)
  = requestedContainers t1 ++ requestedContainers t2.
Proof. apply omap_app. Qed.




(** ** How many resources *)

Lemma createChannel_counts (id : IdType) (itor : ShadowMapTexDef)
    (h : Trace) (ch : CompositorChannel) (tr : Trace) :
  createChannel id itor h = (Ok ch, tr) ->
  length (textures ch) = length (formatList itor)
  /\ length (requestedTextures tr) = length (formatList itor)
  /\ length (requestedContainers tr)
     = (if decide (length (formatList itor) = 1%nat) then 0 else 1)%nat.
Proof.
  intros Hrun. case_decide as Hlen.
  - destruct (formatList itor) as [| format0 [| ? ?]] eqn:Hfl; try done.
    by destruct (createChannel_single_Ok id itor format0 _ _ _ Hfl Hrun)
      as [-> ->].
  - destruct (createChannel_mrt_Ok id itor _ _ _ Hlen Hrun)
      as (_ & _ & Hcont & Hargs & Hreq & _).
    assert (Htex : length (textures ch) = length (formatList itor)).
    { rewrite <- (length_fmap tex_args), Hargs. apply length_imap. }
    split; [done |].
    split; [by rewrite Hreq, length_fmap | by rewrite Hcont].
Qed.

Lemma shadowMapLoop_counts (id : IdType) (defs : list ShadowMapTexDef) :
  forall (acc : list CompositorChannel) (h : Trace)
         (channels : list CompositorChannel) (tr : Trace),
    shadowMapLoop id defs acc h = (Ok channels, tr) ->
    length (requestedTextures tr)
    = sum_list ((fun itor : ShadowMapTexDef => length (formatList itor)) <$> defs)
    /\ length (requestedContainers tr)
       = length (filter (fun itor : ShadowMapTexDef =>
                           length (formatList itor) <> 1%nat) defs).
Proof.
  induction defs as [| itor defs IH]; intros acc h channels tr Hrun.
  - simpl in Hrun. unfold ret in Hrun. by injection Hrun as <- <-.
  - simpl in Hrun.
    apply bind_Ok in Hrun as (ch0 & t1 & t2 & Hbody & Hrest & ->).
    apply IH in Hrest as [Htex Hcont].
    apply createChannel_counts in Hbody as (_ & Htex0 & Hcont0).
    rewrite requestedTextures_app, requestedContainers_app, !length_app.
    rewrite Htex, Htex0, Hcont, Hcont0. split; [done |].
    rewrite filter_cons.
    destruct (decide (length (formatList itor) = 1%nat)) as [Hone | Hne].
    + by rewrite decide_False by (intros Hn; by apply Hn).
    + by rewrite decide_True by done.
Qed.

(** X2.  A construction that returns has created exactly one texture per
    format of every definition (so none for an empty format list) and
    one container for every definition whose format list has not exactly
    one entry; each channel holds as many textures as its definition has
    formats. *)
Theorem ctor_creation_counts (id : IdType)
    (definition : CompositorShadowNodeDef) (h : Trace)
    (node : CompositorShadowNode.t) (tr : Trace) :
  ctor id definition h = (Ok node, tr) ->
  length (requestedTextures tr)
  = sum_list ((fun itor : ShadowMapTexDef => length (formatList itor))
                <$> mShadowMapTexDefinitions definition)
  /\ length (requestedContainers tr)
     = length (filter (fun itor : ShadowMapTexDef =>
                         length (formatList itor) <> 1%nat)
                      (mShadowMapTexDefinitions definition))
  /\ (fun ch => length (textures ch)) <$> mLocalTextures node
     = (fun itor : ShadowMapTexDef => length (formatList itor))
         <$> mShadowMapTexDefinitions definition.
Proof.
  intros Hrun.
  destruct (ctor_Ok_channels id definition h node tr Hrun) as [Hlen Hnth].
  apply ctor_Ok in Hrun as (t1 & Hloop & -> & _).
  apply shadowMapLoop_counts in Hloop as [Htex Hcont].
  rewrite requestedTextures_app, requestedContainers_app, !length_app.
  simpl. rewrite !Nat.add_0_r.
  split; [done |]. split; [done |].
  apply list_eq. intros i. rewrite !list_lookup_fmap.
  destruct (mShadowMapTexDefinitions definition !! i) as [itor |] eqn:Hi.
  - destruct (Hnth i itor Hi) as (ch & pre & seg & post & -> & Hseg & _).
    simpl. f_equal. by apply createChannel_counts in Hseg as [? _].
  - apply lookup_ge_None in Hi.
    rewrite (proj2 (lookup_ge_None _ _)) by lia. done.
Qed.

(** ** Two definitions of the same name *)

Lemma expectedNames_app (id : IdType) (l1 l2 : list ShadowMapTexDef) :
  expectedNames id (l1 ++ l2) = expectedNames id l1 ++ expectedNames id l2.
Proof. unfold expectedNames. by rewrite fmap_app, concat_app. Qed.

Lemma expectedNames_cons (id : IdType) (itor : ShadowMapTexDef)
    (defs : list ShadowMapTexDef) :
  expectedNames id (itor :: defs)
  = channelNames id itor ++ expectedNames id defs.
Proof. reflexivity. Qed.

(** The names requested for a definition start with its base name. *)
Lemma channelNames_head (id : IdType) (itor : ShadowMapTexDef) :
  exists rest, channelNames id itor = textureName id (name itor) :: rest.
Proof.
  unfold channelNames.
  destruct (formatList itor) as [| ? [| ? ?]]; simpl; by eexists.
Qed.

(** X9.  The constructor does not tell definitions of the same name
    apart: when two definitions of the list carry the same name, a
    construction that returns has requested their common base name from
    the backend twice, once for each of them. *)
Theorem ctor_same_name_requested_twice (id : IdType)
    (definition : CompositorShadowNodeDef) (h : Trace)
    (node : CompositorShadowNode.t) (tr : Trace)
    (i j : nat) (itor1 itor2 : ShadowMapTexDef) :
  ctor id definition h = (Ok node, tr) ->
  mShadowMapTexDefinitions definition !! i = Some itor1 ->
  mShadowMapTexDefinitions definition !! j = Some itor2 ->
  (i < j)%nat ->
  name itor1 = name itor2 ->
  exists before between after,
    requestedNames tr
    = before ++ textureName id (name itor1)
        :: between ++ textureName id (name itor1) :: after.
Proof.
  intros Hrun Hi Hj Hlt Hname.
  destruct (requests_ctor id definition h) as [_ Heq].
  rewrite Hrun in Heq. simpl in Heq. rewrite (Heq eq_refl). clear Heq.
  set (defs := mShadowMapTexDefinitions definition) in *.
  assert (Hj' : drop (S i) defs !! (j - S i)%nat = Some itor2).
  { rewrite lookup_drop. by replace (S i + (j - S i))%nat with j by lia. }
  rewrite <- (take_drop_middle defs i itor1 Hi).
  rewrite <- (take_drop_middle (drop (S i) defs) _ itor2 Hj').
  rewrite expectedNames_app, expectedNames_cons, expectedNames_app,
    expectedNames_cons.
  destruct (channelNames_head id itor1) as [rest1 ->].
  destruct (channelNames_head id itor2) as [rest2 ->].
  rewrite <- Hname.
  exists (expectedNames id (take i defs)),
    (rest1 ++ expectedNames id (take (j - S i) (drop (S i) defs))),
    (rest2 ++ expectedNames id (drop (S (j - S i)) (drop (S i) defs))).
  simpl. by rewrite <- !app_assoc.
Qed.

(** ** The arguments of the texture requests *)

Lemma emits_createChannel_formats (P : Event -> Prop) (id : IdType)
    (itor : ShadowMapTexDef) :
  (forall name pix ok, pix ∈ formatList itor ->
     P (mkEvent (CreateManual (manualArgs name itor pix)) ok)) ->
  (forall name ok, P (mkEvent (CreateMultiRenderTarget name) ok)) ->
  (forall mrt k rt ok, P (mkEvent (BindSurface mrt k rt) ok)) ->
  emits P (createChannel id itor).
Proof.
  intros Hman Hmrt Hbind.
  assert (Hloop : forall mrt pixels rtNum ch,
            (forall pix, pix ∈ pixels -> pix ∈ formatList itor) ->
            emits P (mrtLoop (textureName id (name itor)) itor mrt rtNum pixels ch)).
  { intros mrt pixels.
    induction pixels as [| pix pixels IH]; intros rtNum ch Hsub; simpl.
    - apply emits_ret.
    - apply emits_bind.
      { apply emits_bind; [| intros; apply emits_ret].
        apply emits_call. intros ok. apply Hman, Hsub, elem_of_cons. by left. }
      intros tex. apply emits_bind.
      { apply emits_bind; [by apply emits_call | intros; apply emits_ret]. }
      intros _. apply IH. intros pix' Hin. apply Hsub, elem_of_cons. by right. }
  destruct (decide (length (formatList itor) = 1%nat)) as [Hone | Hne].
  - destruct (formatList itor) as [| format0 [| ? ?]] eqn:Hfl; try done.
    rewrite (createChannel_single_branch id itor format0 Hfl).
    apply emits_bind; [| intros; apply emits_ret].
    apply emits_bind; [| intros; apply emits_ret].
    apply emits_call. intros ok. apply Hman.
    by apply list_elem_of_singleton.
  - rewrite (createChannel_mrt_branch id itor Hne).
    apply emits_bind; [| intros mrt; by apply Hloop].
    apply emits_bind; [by apply emits_call | intros; apply emits_ret].
Qed.

Lemma createChannel_requestedTextures (P : ManualTextureArgs -> Prop)
    (id : IdType) (itor : ShadowMapTexDef) (h : Trace)
    (args : ManualTextureArgs) :
  (forall name pix, pix ∈ formatList itor -> P (manualArgs name itor pix)) ->
  args ∈ requestedTextures (snd (createChannel id itor h)) ->
  P args.
Proof.
  intros HP Hin.
  pose proof (emits_createChannel_formats
    (fun ev => forall a, ev_call ev = CreateManual a -> P a) id itor) as Hemit.
  unfold emits in Hemit.
  specialize (Hemit ltac:(intros ? ? ? Hpix a [= <-]; by apply HP)
    ltac:(by intros) ltac:(by intros) h).
  unfold requestedTextures in Hin.
  apply list_elem_of_omap in Hin as (ev & Hev & Hargs).
  rewrite Forall_forall in Hemit. apply (Hemit ev Hev).
  by destruct (ev_call ev); simplify_eq.
Qed.

(** X3.  Every texture the loop body asks the backend to create for a
    definition, in any run, is a two-dimensional render target without
    mipmaps in the internal resource group, in one of the definition's
    formats and of exactly the definition's width and height: a width or
    height of 0 is handed to the backend as 0. *)
Theorem createChannel_texture_requests (id : IdType) (itor : ShadowMapTexDef)
    (h : Trace) (args : ManualTextureArgs) :
  args ∈ requestedTextures (snd (createChannel id itor h)) ->
  arg_group args = INTERNAL_RESOURCE_GROUP_NAME
  /\ arg_texType args = TEX_TYPE_2D
  /\ arg_numMipmaps args = 0
  /\ arg_usage args = TU_RENDERTARGET
  /\ arg_width args = width itor
  /\ arg_height args = height itor
  /\ arg_format args ∈ formatList itor.
Proof.
  apply (createChannel_requestedTextures
    (fun a => arg_group a = INTERNAL_RESOURCE_GROUP_NAME
              /\ arg_texType a = TEX_TYPE_2D
              /\ arg_numMipmaps a = 0
              /\ arg_usage a = TU_RENDERTARGET
              /\ arg_width a = width itor
              /\ arg_height a = height itor
              /\ arg_format a ∈ formatList itor)).
  intros name pix Hpix. by repeat split.
Qed.


End ShadowNodeRuns.

(** * Further properties of the registry *)

Section RegistryLookups.

Import TextureDefinitionBase.

(** X10.  A name registered with an index in the supported range is
    found again: looking up the returned interned name gives back the
    index and the source it was registered with, and the lookup of every
    other name is what it was before, found or not. *)
Theorem getTextureSource_after_addTextureSourceName (name : string)
    (index : Z) (ts : TextureSource) (self self' : t) (hashedName : IdString) :
  addTextureSourceName name index ts self = Ok (hashedName, self') ->
  0 <= index < maxIndex ->
  getTextureSource hashedName self' = Ok (index, ts)
  /\ forall key : IdString, key <> hashedName ->
       getTextureSource key self' = getTextureSource key self.
Proof.
  rewrite addTextureSourceName_cases. intros Hadd Hidx.
  destruct (mNameToChannelMap self !! IdString_of_String name); [discriminate |].
  destruct (violatesGlobalPrefix name ts); [discriminate |].
  injection Hadd as <- <-. unfold getTextureSource. simpl. split.
  - rewrite lookup_insert_eq. f_equal.
    by apply decodeTexSource_encodeTexSource_below.
  - intros key Hne. by rewrite lookup_insert_ne.
Qed.

(** What a successful [addTextureDefinition] leaves behind. *)
Lemma addTextureDefinition_Ok (name : string) (self self' : t) (idx : nat) :
  addTextureDefinition name self = Ok (idx, self') ->
  mNameToChannelMap self !! IdString_of_String name = None
  /\ idx = length (mLocalTextureDefs self)
  /\ mDefaultLocalTextureSource self' = mDefaultLocalTextureSource self
  /\ mLocalTextureDefs self'
     = mLocalTextureDefs self ++ [TextureDefinition_ctor (IdString_of_String name)]
  /\ mNameToChannelMap self'
     = <[IdString_of_String name :=
           encodeTexSource (Z.of_nat (length (mLocalTextureDefs self)))
             (mDefaultLocalTextureSource self)]> (mNameToChannelMap self).
Proof.
  unfold addTextureDefinition. rewrite addTextureSourceName_cases.
  destruct (mNameToChannelMap self !! IdString_of_String name); [discriminate |].
  destruct (violatesGlobalPrefix name _); [discriminate |].
  simpl. intros [= <- <-]. done.
Qed.

(** X11.  A successful [addTextureDefinition] appends one definition and
    nothing else: the definitions stored before keep their positions,
    the new one sits at the returned position, which is the previous
    count, and has the name it was created with and the default fields
    of the [TextureDefinition] constructor (no format, width and height
    0, FSAA on, gamma write [Undefined], depth-buffer pool 1); and below
    the index limit the name now resolves to that position under the
    registry's default source. *)
Theorem addTextureDefinition_appends (name : string) (self self' : t)
    (idx : nat) :
  addTextureDefinition name self = Ok (idx, self') ->
  idx = length (mLocalTextureDefs self)
  /\ (forall (i : nat) (def : TextureDefinition),
        mLocalTextureDefs self !! i = Some def ->
        mLocalTextureDefs self' !! i = Some def)
  /\ length (mLocalTextureDefs self') = S (length (mLocalTextureDefs self))
  /\ (exists def,
        mLocalTextureDefs self' !! idx = Some def
        /\ TextureDefinitionBase.name def = IdString_of_String name
        /\ formatList def = []
        /\ width def = 0 /\ height def = 0
        /\ fsaa def = true
        /\ hwGammaWrite def = Undefined
        /\ depthBufferId def = 1
        /\ fsaaExplicitResolve def = false)
  /\ (Z.of_nat idx < maxIndex ->
      getTextureSource (IdString_of_String name) self'
      = Ok (Z.of_nat idx, mDefaultLocalTextureSource self)).
Proof.
  intros Hadd.
  apply addTextureDefinition_Ok in Hadd as (_ & -> & Hsrc & Hdefs & Hmap).
  rewrite Hdefs. split; [done |].
  split; [intros i def Hi; by apply lookup_app_l_Some |].
  split; [rewrite length_app; simpl; lia |].
  split.
  - eexists. split; [by apply list_lookup_middle |]. by repeat split.
  - intros Hlim. unfold getTextureSource. rewrite Hmap, lookup_insert_eq.
    f_equal. apply decodeTexSource_encodeTexSource_below. lia.
Qed.

(** X12.  Registries filled through [addTextureDefinition] keep every
    name resolving to its own definition: the property holds for a new
    registry, and a successful [addTextureDefinition] below the index
    limit preserves it, as does the registration of a name under another
    source than the registry's default. *)
Theorem namesResolve_preserved (self : t) :
  (forall defaultSource, namesResolve (ctor defaultSource))
  /\ (forall (name : string) (idx : nat) (self' : t),
        namesResolve self ->
        Z.of_nat (length (mLocalTextureDefs self)) < maxIndex ->
        addTextureDefinition name self = Ok (idx, self') ->
        namesResolve self')
  /\ (forall (name : string) (index : Z) (ts : TextureSource)
             (hashedName : IdString) (self' : t),
        namesResolve self ->
        0 <= index < maxIndex ->
        ts <> mDefaultLocalTextureSource self ->
        addTextureSourceName name index ts self = Ok (hashedName, self') ->
        namesResolve self').
Proof.
  split; [| split].
  - intros defaultSource key index Hget.
    unfold getTextureSource, ctor in Hget. simpl in Hget.
    by rewrite lookup_empty in Hget.
  - intros name idx self' Hinv Hlim Hadd key index Hget.
    apply addTextureDefinition_Ok in Hadd as (_ & -> & Hsrc & Hdefs & Hmap).
    unfold getTextureSource in Hget. rewrite Hmap, Hsrc in Hget.
    destruct (decide (key = IdString_of_String name)) as [-> | Hne].
    + rewrite lookup_insert_eq in Hget.
      rewrite decodeTexSource_encodeTexSource_below in Hget by lia.
      injection Hget as <-. split; [lia |].
      rewrite Nat2Z.id, Hdefs. eexists. split; [by apply list_lookup_middle |].
      done.
    + rewrite lookup_insert_ne in Hget by done.
      destruct (Hinv key index) as (Hnn & def & Hdef & Hname).
      { unfold getTextureSource. exact Hget. }
      split; [done |]. exists def. split; [| done].
      rewrite Hdefs. by apply lookup_app_l_Some.
  - intros name index ts hashedName self' Hinv Hidx Hts Hadd key i Hget.
    rewrite addTextureSourceName_cases in Hadd.
    destruct (mNameToChannelMap self !! IdString_of_String name); [discriminate |].
    destruct (violatesGlobalPrefix name ts); [discriminate |].
    injection Hadd as <- <-. unfold getTextureSource in Hget. simpl in *.
    destruct (decide (key = IdString_of_String name)) as [-> | Hne].
    + rewrite lookup_insert_eq in Hget.
      rewrite decodeTexSource_encodeTexSource_below in Hget by done.
      injection Hget as _ Heq. contradiction.
    + rewrite lookup_insert_ne in Hget by done.
      by apply (Hinv key i).
Qed.

(** X13.  [getNumInputChannels] counts the registrations made under
    [TEXTURE_INPUT]: it is 0 for a new registry, and a successful
    [addTextureSourceName] with an index in the supported range raises
    it by one when the source is [TEXTURE_INPUT] and leaves it as it was
    for any other source. *)
Theorem getNumInputChannels_counts_inputs (self : t) :
  (forall defaultSource, getNumInputChannels (ctor defaultSource) = 0%nat)
  /\ (forall (name : string) (index : Z) (ts : TextureSource)
             (hashedName : IdString) (self' : t),
        addTextureSourceName name index ts self = Ok (hashedName, self') ->
        0 <= index < maxIndex ->
        getNumInputChannels self'
        = (getNumInputChannels self
           + if decide (ts = TEXTURE_INPUT) then 1 else 0)%nat).
Proof.
  split.
  - intros defaultSource. unfold getNumInputChannels, ctor. simpl.
    by rewrite map_filter_empty, map_size_empty.
  - intros name index ts hashedName self' Hadd Hidx.
    rewrite addTextureSourceName_cases in Hadd.
    destruct (mNameToChannelMap self !! IdString_of_String name) eqn:Hfresh;
      [discriminate |].
    destruct (violatesGlobalPrefix name ts); [discriminate |].
    injection Hadd as <- <-. unfold getNumInputChannels. simpl.
    case_decide as Hts.
    + rewrite map_filter_insert_True.
      * rewrite map_size_insert_None; [lia |].
        apply map_lookup_filter_None_2. by left.
      * change (snd (decodeTexSource (encodeTexSource index ts)) = TEXTURE_INPUT).
        by rewrite decodeTexSource_encodeTexSource_below.
    + rewrite map_filter_insert_False.
      * rewrite delete_id by done. lia.
      * change (snd (decodeTexSource (encodeTexSource index ts)) <> TEXTURE_INPUT).
        by rewrite decodeTexSource_encodeTexSource_below.
Qed.

(** ** A name is defined once *)

(** X15.  After a successful [addTextureDefinition] the name is taken:
    defining it again, or registering it as a name of any source at any
    index, throws [NameConflict], whether or not the prefix rule holds. *)
Theorem addTextureDefinition_name_taken (name : string) (self self' : t)
    (idx : nat) :
  addTextureDefinition name self = Ok (idx, self') ->
  addTextureDefinition name self' = Throw NameConflict
  /\ forall (index : Z) (ts : TextureSource),
       addTextureSourceName name index ts self' = Throw NameConflict.
Proof.
  intros Hadd.
  apply addTextureDefinition_Ok in Hadd as (_ & _ & _ & _ & Hmap).
  assert (Htaken : forall index ts,
            addTextureSourceName name index ts self' = Throw NameConflict).
  { intros index ts. rewrite addTextureSourceName_cases, Hmap.
    by rewrite lookup_insert_eq. }
  split; [| done]. by apply addTextureDefinition_Throw.
Qed.

End RegistryLookups.

(** * The further properties at concrete inputs *)

Section FurtherEvaluations.

Import TextureDefinitionBase CompositorShadowNode.

(** The backend refuses the third call: the three names requested so far
    are the first three of the six a complete run requests. *)
Lemma ctor_requested_names_witness :
  requestedNames (snd (@ctor (textual (acceptFirst 2)) 7%N sampleDefinition []))
  = ["near#7"; "mid#7"; "mid#70"]
  /\ requestedNames (snd (@ctor (textual (acceptFirst 2)) 7%N sampleDefinition []))
     `prefix_of` ["near#7"; "mid#7"; "mid#70"; "mid#71"; "mid#72"; "far#7"].
Proof.
  split; [vm_compute; reflexivity |].
  exact (proj1 (@ctor_requested_names (textual (acceptFirst 2)) 7%N
                  sampleDefinition [] _ _ (surjective_pairing _))).
Defined.

(** Five textures and one container for formats 1 + 3 + 1. *)
Lemma ctor_creation_counts_witness :
  exists node tr,
    @ctor (textual acceptAll) 7%N sampleDefinition [] = (Ok node, tr)
    /\ length (requestedTextures tr) = 5%nat
    /\ length (requestedContainers tr) = 1%nat.
Proof.
  eexists _, _. split; [vm_compute; reflexivity |].
  destruct (@ctor_creation_counts (textual acceptAll) 7%N sampleDefinition []
              _ _ ltac:(vm_compute; reflexivity)) as (Htex & Hcont & _).
  split; [exact Htex | exact Hcont].
Defined.

(** The one texture of the definition "near". *)
Lemma createChannel_texture_requests_witness :
  let itor := shadowDef "near" [10%N] in
  let args := manualArgs "near#7" itor 10%N in
  arg_texType args = TEX_TYPE_2D
  /\ arg_width args = 1024 /\ arg_height args = 1024
  /\ arg_format args ∈ [10%N].
Proof.
  intros itor args.
  destruct (@createChannel_texture_requests (textual acceptAll) 7%N itor []
              args) as (_ & Htype & _ & _ & Hw & Hh & Hfmt).
  { vm_compute. apply list_elem_of_singleton. reflexivity. }
  by repeat split.
Defined.


(** The backend refuses the third call: the run ends there, after two
    calls that returned. *)
Lemma ctor_stops_at_first_throw_witness :
  exists tr pre ev,
    @ctor (textual (acceptFirst 2)) 7%N sampleDefinition []
    = (Throw BackendAllocationError, tr)
    /\ tr = pre ++ [ev]
    /\ ev_ok ev = false
    /\ Forall (fun ev' => ev_ok ev' = true) pre.
Proof.
  eexists _.
  destruct (@ctor_stops_at_first_throw (textual (acceptFirst 2)) 7%N
              sampleDefinition [] BackendAllocationError _
              ltac:(vm_compute; reflexivity))
    as (_ & pre & ev & Htr & Hno & _ & Hpre).
  exists pre, ev. by repeat split.
Defined.



(** Without definitions, one call and a node without channels. *)
Lemma ctor_no_definitions_witness :
  @ctor (textual acceptAll) 7%N noDefinitions []
  = (Ok {| mId := 7%N; mName := "shadowNode"; mDefinition := noDefinitions;
           mLocalTextures := [] |},
     [mkEvent (InitializePasses []) true]).
Proof.
  exact (@ctor_no_definitions (textual acceptAll) 7%N noDefinitions [] eq_refl).
Defined.

(** The base name "a#7" is requested for both definitions named "a". *)
Lemma ctor_same_name_requested_twice_witness :
  exists before between after,
    requestedNames (snd (@ctor (textual acceptAll) 7%N sameNameTwice []))
    = before ++ "a#7" :: between ++ "a#7" :: after.
Proof.
  destruct (@ctor_same_name_requested_twice (textual acceptAll) 7%N
              sameNameTwice [] _ _ 0%nat 1%nat
              (shadowDef "a" [10%N]) (shadowDef "a" [10%N; 11%N])
              ltac:(vm_compute; reflexivity) eq_refl eq_refl
              ltac:(lia) eq_refl)
    as (before & between & after & Heq).
  exists before, between, after. exact Heq.
Defined.

(** An input alias registered at index 5 is found at index 5. *)
Lemma getTextureSource_after_addTextureSourceName_witness :
  exists self',
    addTextureSourceName "myRT" 5 TEXTURE_INPUT
      (TextureDefinitionBase.ctor TEXTURE_LOCAL) = Ok ("myRT", self')
    /\ getTextureSource "myRT" self' = Ok (5, TEXTURE_INPUT).
Proof.
  eexists. split; [reflexivity |].
  refine (proj1 (getTextureSource_after_addTextureSourceName
                   "myRT" 5 TEXTURE_INPUT
                   (TextureDefinitionBase.ctor TEXTURE_LOCAL) _ "myRT"
                   eq_refl _)).
  unfold maxIndex. lia.
Defined.

(** The first definition of a new registry sits at position 0 and is
    found there. *)
Lemma addTextureDefinition_appends_witness :
  exists self',
    addTextureDefinition "depth" (TextureDefinitionBase.ctor TEXTURE_LOCAL)
    = Ok (0%nat, self')
    /\ length (mLocalTextureDefs self') = 1%nat
    /\ getTextureSource "depth" self' = Ok (0, TEXTURE_LOCAL).
Proof.
  eexists. split; [reflexivity |].
  destruct (addTextureDefinition_appends "depth"
              (TextureDefinitionBase.ctor TEXTURE_LOCAL) _ 0%nat eq_refl)
    as (_ & _ & Hlen & _ & Hget).
  split; [exact Hlen |]. apply Hget. unfold maxIndex. simpl. lia.
Defined.

(** A registry with one definition keeps its names resolving. *)
Lemma namesResolve_preserved_witness :
  exists self',
    addTextureDefinition "depth" (TextureDefinitionBase.ctor TEXTURE_LOCAL)
    = Ok (0%nat, self')
    /\ namesResolve self'.
Proof.
  eexists. split; [reflexivity |].
  destruct (namesResolve_preserved (TextureDefinitionBase.ctor TEXTURE_LOCAL))
    as (Hnew & Hkeep & _).
  apply (Hkeep "depth" 0%nat _ (Hnew TEXTURE_LOCAL)); [| reflexivity].
  unfold maxIndex. simpl. lia.
Defined.

(** One input alias and one local name: one input channel. *)
Lemma getNumInputChannels_counts_inputs_witness :
  let self0 := TextureDefinitionBase.ctor TEXTURE_LOCAL in
  let self1 :=
    {| mDefaultLocalTextureSource := TEXTURE_LOCAL;
       mLocalTextureDefs := [];
       mNameToChannelMap :=
         <["myRT" := encodeTexSource 0 TEXTURE_INPUT]> ∅ |} in
  let self2 :=
    {| mDefaultLocalTextureSource := TEXTURE_LOCAL;
       mLocalTextureDefs := [];
       mNameToChannelMap :=
         <["depth" := encodeTexSource 0 TEXTURE_LOCAL]>
           (<["myRT" := encodeTexSource 0 TEXTURE_INPUT]> ∅) |} in
  addTextureSourceName "myRT" 0 TEXTURE_INPUT self0 = Ok ("myRT", self1)
  /\ addTextureSourceName "depth" 0 TEXTURE_LOCAL self1 = Ok ("depth", self2)
  /\ getNumInputChannels self1 = 1%nat
  /\ getNumInputChannels self2 = 1%nat.
Proof.
  intros self0 self1 self2.
  assert (H1 : addTextureSourceName "myRT" 0 TEXTURE_INPUT self0
               = Ok ("myRT", self1)) by reflexivity.
  assert (H2 : addTextureSourceName "depth" 0 TEXTURE_LOCAL self1
               = Ok ("depth", self2)) by reflexivity.
  assert (Hidx : 0 <= 0 < maxIndex) by (unfold maxIndex; lia).
  split; [exact H1 |]. split; [exact H2 |].
  pose proof (proj2 (getNumInputChannels_counts_inputs self0)
                "myRT" 0 TEXTURE_INPUT "myRT" self1 H1 Hidx) as Hn1.
  pose proof (proj2 (getNumInputChannels_counts_inputs self1)
                "depth" 0 TEXTURE_LOCAL "depth" self2 H2 Hidx) as Hn2.
  assert (Hn0 : getNumInputChannels self0 = 0%nat)
    by exact (proj1 (getNumInputChannels_counts_inputs self0) TEXTURE_LOCAL).
  rewrite Hn2, Hn1, Hn0.
  split; reflexivity.
Defined.

(** "depth" cannot be defined twice. *)
Lemma addTextureDefinition_name_taken_witness :
  exists self',
    addTextureDefinition "depth" (TextureDefinitionBase.ctor TEXTURE_LOCAL)
    = Ok (0%nat, self')
    /\ addTextureDefinition "depth" self' = Throw NameConflict.
Proof.
  eexists. split; [reflexivity |].
  exact (proj1 (addTextureDefinition_name_taken "depth"
                  (TextureDefinitionBase.ctor TEXTURE_LOCAL) _ 0%nat eq_refl)).
Defined.

End FurtherEvaluations.
